(** * Food health rating: normalisation and scoring pipeline

    A shallow embedding of [app.py]: the classes [IngredientNormalizer],
    [NutrientNormalizer] and [HealthScorer], with the properties of the
    pipeline proved about the embedded functions.

    Modelling conventions.
    - Python [str] is [string] restricted to ASCII: [lower] maps 'A'..'Z'
      to 'a'..'z', and the white space of [str.strip] and of the regular
      expression class [\s] is the ASCII set 9-13, 28-31 and 32.
    - Numbers come in two embeddings.  In the modules [NutrientNormalizer]
      and [HealthScorer] a Python [float] (and the [int]s mixed with it)
      is an exact rational in [Q] and [int(x)] is truncation toward zero;
      they carry the properties that rounding cannot change (bounds,
      order, structure, what is recorded and when).  The module [Float64]
      embeds the same numeric code with Python's own numbers, [int] as
      [Z] and [float] as binary64; it carries the properties about the
      numbers themselves.
    - A [dict] that is read by key is a [gmap]; a [dict] that is iterated
      (the raw nutrient map) is the list of its items in insertion order.
    - A Python [set] of terms is a list of its elements; every use is an
      existence test, which does not depend on the order of iteration.
    - Logging is not modelled.  The [explanation] text of a driver is a
      rendering of numbers already kept in the driver and is left out. *)

From Stdlib Require Import ZArith QArith Qround Qminmax Lqa Ascii String List Permutation Lia Bool.
From Stdlib Require Import Floats Uint63.
From stdpp Require Import gmap strings.
Import ListNotations.

Local Open Scope string_scope.
Local Open Scope list_scope.

(** ** Text primitives *)

Module Text.

Definition is_upper (c : ascii) : bool :=
  let n := nat_of_ascii c in (65 <=? n)%nat && (n <=? 90)%nat.

Definition lower_char (c : ascii) : ascii :=
  if is_upper c then ascii_of_nat (nat_of_ascii c + 32) else c.

(** [str.lower()] *)
Fixpoint lower (s : string) : string :=
  match s with
  | EmptyString => EmptyString
  | String c r => String (lower_char c) (lower r)
  end.

(** [str.isspace] on one character, also the class [\s]. *)
Definition is_space (c : ascii) : bool :=
  let n := nat_of_ascii c in
  ((9 <=? n)%nat && (n <=? 13)%nat) || ((28 <=? n)%nat && (n <=? 32)%nat).

Definition is_digit (c : ascii) : bool :=
  let n := nat_of_ascii c in (48 <=? n)%nat && (n <=? 57)%nat.

Definition is_empty (s : string) : bool :=
  match s with EmptyString => true | _ => false end.

(** [term in s]: [term] occurs in [s] as a contiguous substring. *)
Fixpoint contains (term s : string) : bool :=
  String.prefix term s ||
  match s with
  | EmptyString => false
  | String _ r => contains term r
  end.

Fixpoint lstrip (s : string) : string :=
  match s with
  | EmptyString => EmptyString
  | String c r => if is_space c then lstrip r else s
  end.

Fixpoint rstrip (s : string) : string :=
  match s with
  | EmptyString => EmptyString
  | String c r =>
      let r' := rstrip r in
      if is_space c && is_empty r' then EmptyString else String c r'
  end.

(** [str.strip()] *)
Definition strip (s : string) : string := rstrip (lstrip s).

(** [str.replace(a, b)] for single characters. *)
Fixpoint replace_char (a b : ascii) (s : string) : string :=
  match s with
  | EmptyString => EmptyString
  | String c r => String (if Ascii.eqb c a then b else c) (replace_char a b r)
  end.

(** [c in s] for one character. *)
Fixpoint mem_char (c : ascii) (s : string) : bool :=
  match s with
  | EmptyString => false
  | String d r => Ascii.eqb d c || mem_char c r
  end.

End Text.

(** ** IngredientNormalizer *)

Module IngredientNormalizer.
Import Text.

Definition HARMFUL_ADDITIVES : list string :=
  [ "sodium nitrite"; "sodium nitrate"; "potassium nitrite"; "potassium nitrate";
    "bha"; "bht"; "tbhq"; "propyl gallate";
    "artificial colors"; "red dye 40"; "yellow 6"; "blue 1";
    "high fructose corn syrup"; "corn syrup solids" ].

Definition ULTRA_PROCESSED_MARKERS : list string :=
  [ "modified starch"; "hydrolyzed protein"; "isolated protein";
    "artificial flavors"; "natural flavors"; "flavor enhancer";
    "emulsifier"; "stabilizer"; "thickener" ].

Definition BENEFICIAL_INGREDIENTS : list string :=
  [ "whole grain"; "whole wheat"; "oats"; "quinoa"; "brown rice";
    "fiber"; "protein"; "vitamins"; "minerals" ].

(** *** normalize_ingredient_list *)

Definition is_separator (c : ascii) : bool :=
  Ascii.eqb c "," || Ascii.eqb c ";".

(** [re.split(r'[,;]', s)]: the pieces between separators, empty ones
    included; the result is never empty. *)
Fixpoint re_split (s : string) : list string :=
  match s with
  | EmptyString => [EmptyString]
  | String c r =>
      if is_separator c then EmptyString :: re_split r
      else match re_split r with
           | [] => [String c EmptyString]
           | piece :: pieces => String c piece :: pieces
           end
  end.

(** [re.sub(r'\([^)]*\)', '', s)].  A match starts at a '(' that has a
    ')' somewhere after it and runs to the first such ')'.  [skipping]
    says that the scan is inside a match. *)
Fixpoint sub_parens (skipping : bool) (s : string) : string :=
  match s with
  | EmptyString => EmptyString
  | String c r =>
      if skipping then
        if Ascii.eqb c ")" then sub_parens false r else sub_parens true r
      else if Ascii.eqb c "(" && mem_char ")" r then sub_parens true r
      else String c (sub_parens false r)
  end.

(** [re.sub(r'\s+', ' ', s)]: every maximal run of white space becomes
    one space.  [in_run] says that the previous character was white space. *)
Fixpoint sub_spaces (in_run : bool) (s : string) : string :=
  match s with
  | EmptyString => EmptyString
  | String c r =>
      if is_space c then
        if in_run then sub_spaces true r else String " " (sub_spaces true r)
      else String c (sub_spaces false r)
  end.

(** The body of the loop, up to the test that keeps or drops the token. *)
Definition clean (ingredient : string) : string :=
  let ingredient := strip ingredient in
  let ingredient := sub_parens false ingredient in
  strip (sub_spaces false ingredient).

(** [if ingredient and len(ingredient) > 1] *)
Definition keep (ingredient : string) : bool :=
  negb (is_empty ingredient) && (1 <? String.length ingredient)%nat.

Fixpoint normalize_loop (ingredients normalized : list string) : list string :=
  match ingredients with
  | [] => normalized
  | ingredient :: rest =>
      let ingredient := clean ingredient in
      normalize_loop rest
        (if keep ingredient then normalized ++ [ingredient] else normalized)
  end.

(** The argument is [None] for Python's [None]. *)
Definition normalize_ingredient_list (raw_ingredients : option string) : list string :=
  match raw_ingredients with
  | None => []
  | Some raw =>
      if is_empty raw then []
      else normalize_loop (re_split (lower raw)) []
  end.

(** *** classify_ingredients *)

Record Classification := mkClassification {
  harmful_additives : list string;
  ultra_processed_markers : list string;
  beneficial_ingredients : list string;
  other : list string
}.

(** [for term in terms: if term in ingredient_lower: ...; break] *)
Fixpoint any_term (terms : list string) (ingredient_lower : string) : bool :=
  match terms with
  | [] => false
  | term :: rest =>
      if contains term ingredient_lower then true
      else any_term rest ingredient_lower
  end.

Definition classify_one (classification : Classification) (ingredient : string)
  : Classification :=
  let ingredient_lower := lower ingredient in
  let '(mkClassification h u b o) := classification in
  if any_term HARMFUL_ADDITIVES ingredient_lower then
    mkClassification (h ++ [ingredient]) u b o
  else if any_term ULTRA_PROCESSED_MARKERS ingredient_lower then
    mkClassification h (u ++ [ingredient]) b o
  else if any_term BENEFICIAL_INGREDIENTS ingredient_lower then
    mkClassification h u (b ++ [ingredient]) o
  else
    mkClassification h u b (o ++ [ingredient]).

Definition classify_ingredients (ingredients : list string) : Classification :=
  fold_left classify_one ingredients (mkClassification [] [] [] []).

End IngredientNormalizer.

(** ** NutrientNormalizer *)

Record NutrientInfo := mkNutrientInfo {
  name : string;
  value : Q;
  unit : string;
  per_100g : Q
}.

Module NutrientNormalizer.
Import Text.

(** The longest prefix of digits, and what follows it. *)
Fixpoint take_digits (s : string) : string * string :=
  match s with
  | EmptyString => (EmptyString, EmptyString)
  | String c r =>
      if is_digit c then
        let '(ds, rest) := take_digits r in (String c ds, rest)
      else (EmptyString, s)
  end.

(** The text matched by [\d+\.?\d*] at the start of [s], which begins
    with a digit: the digits, then a point if there is one, then the
    digits after it. *)
Definition match_number (s : string) : string :=
  let '(whole, rest) := take_digits s in
  match rest with
  | String "."%char r => whole +:+ String "."%char (fst (take_digits r))
  | _ => whole
  end.

(** [re.search] for the pattern [\d+\.?\d*], giving [group(1)]: the match
    at the leftmost digit. *)
Fixpoint re_search_number (s : string) : option string :=
  match s with
  | EmptyString => None
  | String c r =>
      if is_digit c then Some (match_number s) else re_search_number r
  end.

Definition digit_value (c : ascii) : Z := Z.of_nat (nat_of_ascii c - 48).

(** [float(text)] for a text of digits with at most one point: the
    digits read as an integer, over ten to the number of digits after the
    point. *)
Fixpoint float_digits (after_point : bool) (num : Z) (den : positive)
    (text : string) : Q :=
  match text with
  | EmptyString => Qmake num den
  | String c r =>
      if is_digit c then
        float_digits after_point (10 * num + digit_value c)
          (if after_point then 10 * den else den)%positive r
      else float_digits true num den r
  end.

Definition float (text : string) : Q := float_digits false 0 1 text.

Definition unit_at (s : string) : option string :=
  if String.prefix "mg" s then Some "mg"
  else if String.prefix "g" s then Some "g"
  else if String.prefix "kcal" s then Some "kcal"
  else if String.prefix "cal" s then Some "cal"
  else None.

(** [re.search(r'(mg|g|kcal|cal)', s)], giving [group(1)]: at the
    leftmost position where an alternative matches, the first alternative
    that does. *)
Fixpoint re_search_unit (s : string) : option string :=
  match unit_at s with
  | Some u => Some u
  | None =>
      match s with
      | EmptyString => None
      | String _ r => re_search_unit r
      end
  end.

(** [key in ['sodium', 'cholesterol']] *)
Definition stays_in_mg (key_lower : string) : bool :=
  String.eqb key_lower "sodium" || String.eqb key_lower "cholesterol".

(** [serving_size_g > 0] *)
Definition positive_serving (serving_size_g : Q) : bool :=
  negb (Qle_bool serving_size_g 0).

(** The body of the loop for one item: [None] when the item is skipped by
    [continue], otherwise the key and the record stored under it. *)
Definition normalize_entry (key value_str : string) (serving_size_g : Q)
  : option (string * NutrientInfo) :=
  match re_search_number value_str with
  | None => None
  | Some text =>
      let value := float text in
      let unit :=
        match re_search_unit (lower value_str) with
        | Some u => u
        | None => "g"
        end in
      let per_100g :=
        if positive_serving serving_size_g
        then ((value / serving_size_g) * 100)%Q
        else value in
      let '(per_100g, unit) :=
        if String.eqb unit "mg" && negb (stays_in_mg (lower key))
        then ((per_100g / 1000)%Q, "g")
        else (per_100g, unit) in
      Some (replace_char " " "_" (lower key),
            mkNutrientInfo key value unit per_100g)
  end.

Definition normalize_step (serving_size_g : Q)
    (normalized : gmap string NutrientInfo) (item : string * string)
  : gmap string NutrientInfo :=
  match normalize_entry (fst item) (snd item) serving_size_g with
  | None => normalized
  | Some (k, info) => <[k := info]> normalized
  end.

(** [raw_nutrients] is the list of the items of the dictionary, in the
    order in which the loop visits them. *)
Definition normalize_nutrients (raw_nutrients : list (string * string))
    (serving_size_g : Q) : gmap string NutrientInfo :=
  fold_left (normalize_step serving_size_g) raw_nutrients ∅.

End NutrientNormalizer.

(** ** Product and score records *)

Record ProductData := mkProductData {
  barcode : option string;
  product_name : string;
  brand : string;
  ingredients : list string;
  nutrients : gmap string NutrientInfo;
  serving_size_g : option Q;
  categories : list string
}.

Record ScoreDriver := mkScoreDriver {
  factor : string;
  impact : string;
  score_delta : Q;
  source : string
}.

Record HealthScore := mkHealthScore {
  overall_score : Z;
  band : string;
  drivers : list ScoreDriver;
  evidence_sources : list string;
  confidence : string;
  warnings : list string
}.

(** ** HealthScorer *)

Module HealthScorer.
Import Text IngredientNormalizer.

Definition sources : list string :=
  [ "FDA Nutrition Facts Label Guidelines (2016)";
    "WHO Global Strategy on Diet, Physical Activity and Health (2004)";
    "Dietary Guidelines for Americans 2020-2025";
    "European Food Safety Authority (EFSA) Scientific Opinions";
    "American Heart Association Dietary Guidelines";
    "Harvard T.H. Chan School of Public Health Nutrition Source" ].

(** Python's [min(a, b)]: [b] when [b < a], otherwise [a]. *)
Definition min_ (a b : Q) : Q := if Qle_bool a b then a else b.

(** [a >= b] and [a > b] *)
Definition ge_ (a b : Q) : bool := Qle_bool b a.
Definition gt_ (a b : Q) : bool := negb (Qle_bool a b).

(** [int(x)]: truncation toward zero. *)
Definition int (x : Q) : Z := if Qle_bool 0 x then Qfloor x else Qceiling x.

(** The three accumulators of a scoring pass. *)
Record Acc := mkAcc {
  acc_score : Q;
  acc_drivers : list ScoreDriver;
  acc_warnings : list string
}.

(** [score_delta += delta; drivers.append(driver)] *)
Definition fire (st : Acc) (driver : ScoreDriver) : Acc :=
  mkAcc (acc_score st + score_delta driver)%Q
        (acc_drivers st ++ [driver]) (acc_warnings st).

(** [warnings.append(w)] *)
Definition warn (st : Acc) (w : string) : Acc :=
  mkAcc (acc_score st) (acc_drivers st) (acc_warnings st ++ [w]).

Definition sodium_warning : string :=
  "High sodium content may contribute to elevated blood pressure".

Definition additives_warning : string :=
  "Contains additives that some studies suggest may have negative health effects".

Definition fiber_rule (nutrients : gmap string NutrientInfo) (st : Acc) : Acc :=
  match nutrients !! "dietary_fiber" with
  | Some info =>
      let fiber := per_100g info in
      if ge_ fiber 6 then
        let delta := min_ 10 (fiber * (3 # 2)) in
        fire st (mkScoreDriver "High Fiber Content" "positive" delta
                   "Dietary Guidelines for Americans 2020-2025")
      else st
  | None => st
  end.

Definition protein_rule (nutrients : gmap string NutrientInfo) (st : Acc) : Acc :=
  match nutrients !! "protein" with
  | Some info =>
      let protein := per_100g info in
      if ge_ protein 12 then
        let delta := min_ 8 (protein * (3 # 10)) in
        fire st (mkScoreDriver "Good Protein Source" "positive" delta
                   "FDA Nutrition Facts Label Guidelines")
      else st
  | None => st
  end.

Definition sodium_rule (nutrients : gmap string NutrientInfo) (st : Acc) : Acc :=
  match nutrients !! "sodium" with
  | Some info =>
      let sodium_mg := (per_100g info * 10)%Q in
      if gt_ sodium_mg 600 then
        let delta := (- min_ 15 ((sodium_mg - 600) * (1 # 100)))%Q in
        warn
          (fire st (mkScoreDriver "High Sodium Content" "negative" delta
                      "American Heart Association Dietary Guidelines"))
          sodium_warning
      else st
  | None => st
  end.

Definition saturated_fat_rule (nutrients : gmap string NutrientInfo) (st : Acc) : Acc :=
  match nutrients !! "saturated_fat" with
  | Some info =>
      let sat_fat := per_100g info in
      if gt_ sat_fat 5 then
        let delta := (- min_ 12 (sat_fat * (3 # 2)))%Q in
        fire st (mkScoreDriver "High Saturated Fat" "negative" delta
                   "WHO Global Strategy on Diet, Physical Activity and Health")
      else st
  | None => st
  end.

Definition total_sugars_rule (nutrients : gmap string NutrientInfo) (st : Acc) : Acc :=
  match nutrients !! "total_sugars" with
  | Some info =>
      let sugars := per_100g info in
      if gt_ sugars 15 then
        let delta := (- min_ 10 (sugars * (1 # 2)))%Q in
        fire st (mkScoreDriver "High Sugar Content" "negative" delta
                   "WHO Global Strategy on Diet, Physical Activity and Health")
      else st
  | None => st
  end.

Definition _score_nutrients (nutrients : gmap string NutrientInfo) : Acc :=
  let st := mkAcc 0 [] [] in
  let st := fiber_rule nutrients st in
  let st := protein_rule nutrients st in
  let st := sodium_rule nutrients st in
  let st := saturated_fat_rule nutrients st in
  total_sugars_rule nutrients st.

(** [len(l)] as a number of the scoring arithmetic. *)
Definition len (l : list string) : Q := inject_Z (Z.of_nat (List.length l)).

Definition harmful_rule (classification : Classification) (st : Acc) : Acc :=
  let harmful_count := len (harmful_additives classification) in
  if gt_ harmful_count 0 then
    let delta := (- min_ 15 (harmful_count * 5))%Q in
    warn
      (fire st (mkScoreDriver "Harmful Additives Present" "negative" delta
                  "EFSA Scientific Opinions on Food Additives"))
      additives_warning
  else st.

Definition processed_rule (classification : Classification) (st : Acc) : Acc :=
  let processed_count := len (ultra_processed_markers classification) in
  if gt_ processed_count 3 then
    let delta := (- min_ 8 (processed_count * 2))%Q in
    fire st (mkScoreDriver "Highly Processed Food" "negative" delta
               "Harvard T.H. Chan School of Public Health")
  else st.

Definition beneficial_rule (classification : Classification) (st : Acc) : Acc :=
  let beneficial_count := len (beneficial_ingredients classification) in
  if gt_ beneficial_count 0 then
    let delta := min_ 10 (beneficial_count * 3) in
    fire st (mkScoreDriver "Beneficial Ingredients" "positive" delta
               "Dietary Guidelines for Americans 2020-2025")
  else st.

Definition _score_ingredients (ingredients : list string) : Acc :=
  let st := mkAcc 0 [] [] in
  let classification := classify_ingredients ingredients in
  let st := harmful_rule classification st in
  let st := processed_rule classification st in
  beneficial_rule classification st.

(** Truth value of an optional string and of a string. *)
Definition truthy_opt (s : option string) : bool :=
  match s with Some t => negb (is_empty t) | None => false end.

Definition _calculate_confidence (confidence_factors : list string)
    (product : ProductData) : string :=
  let score := 0%Z in
  let score := if existsb (String.eqb "nutrients") confidence_factors
               then (score + 50)%Z else score in
  let score := if existsb (String.eqb "ingredients") confidence_factors
               then (score + 30)%Z else score in
  let score := if truthy_opt (barcode product) then (score + 10)%Z else score in
  let score := if negb (is_empty (brand product)) then (score + 10)%Z else score in
  if (80 <=? score)%Z then "high"
  else if (60 <=? score)%Z then "medium"
  else "low".

(** The band of a final score. *)
Definition band_of (final_score : Z) : string :=
  if (80 <=? final_score)%Z then "A"
  else if (65 <=? final_score)%Z then "B"
  else if (50 <=? final_score)%Z then "C"
  else if (35 <=? final_score)%Z then "D"
  else "E".

(** The score before rounding and clamping, with the drivers, warnings and
    confidence factors gathered on the way. *)
Definition accumulate (product : ProductData) : Acc * list string :=
  let st := mkAcc 50 [] [] in
  let confidence_factors : list string := [] in
  let '(st, confidence_factors) :=
    if bool_decide (nutrients product = ∅) then (st, confidence_factors)
    else
      let r := _score_nutrients (nutrients product) in
      (mkAcc (acc_score st + acc_score r)%Q
             (acc_drivers st ++ acc_drivers r)
             (acc_warnings st ++ acc_warnings r),
       confidence_factors ++ ["nutrients"]) in
  let '(st, confidence_factors) :=
    match ingredients product with
    | [] => (st, confidence_factors)
    | _ =>
      let r := _score_ingredients (ingredients product) in
      (mkAcc (acc_score st + acc_score r)%Q
             (acc_drivers st ++ acc_drivers r)
             (acc_warnings st ++ acc_warnings r),
       confidence_factors ++ ["ingredients"])
    end in
  (st, confidence_factors).

Definition score_product (product : ProductData) : HealthScore :=
  let '(st, confidence_factors) := accumulate product in
  let base_score := acc_score st in
  let final_score := Z.max 0 (Z.min 100 (int base_score)) in
  let band := band_of final_score in
  let confidence := _calculate_confidence confidence_factors product in
  mkHealthScore final_score band (acc_drivers st) sources confidence
    (acc_warnings st).

End HealthScorer.

(** ** Reference definitions

    The quantities that the documented behaviour is phrased in, written
    independently of the code above and compared with it below. *)

Module Reference.
Import Text IngredientNormalizer NutrientNormalizer HealthScorer.
Local Open Scope Q_scope.

Definition clamp (x lo hi : Z) : Z :=
  if (x <? lo)%Z then lo else if (hi <? x)%Z then hi else x.

Fixpoint sum_deltas (ds : list ScoreDriver) : Q :=
  match ds with
  | [] => 0
  | d :: rest => score_delta d + sum_deltas rest
  end.

(** The accumulator invariant: the running score is the starting score
    plus the deltas of the drivers recorded so far. *)
Definition tallied (base : Q) (st : Acc) : Prop :=
  acc_score st == base + sum_deltas (acc_drivers st).

(** Four ingredients, each an ultra-processing marker. *)
Definition four_markers : list string :=
  [ "emulsifier"; "stabilizer"; "thickener"; "modified starch" ].

Definition processed_driver : ScoreDriver :=
  mkScoreDriver "Highly Processed Food" "negative" (-8)
    "Harvard T.H. Chan School of Public Health".

(** The three curated term sets, and the test that one of the terms of
    a set occurs in the ingredient, case-insensitively. *)
Inductive Category := Harmful | UltraProcessed | Beneficial.

Definition terms_of (c : Category) : list string :=
  match c with
  | Harmful => HARMFUL_ADDITIVES
  | UltraProcessed => ULTRA_PROCESSED_MARKERS
  | Beneficial => BENEFICIAL_INGREDIENTS
  end.

Definition matches (c : Category) (ingredient : string) : bool :=
  any_term (terms_of c) (lower ingredient).

(** The first set of [order] that matches. *)
Fixpoint first_match (order : list Category) (ingredient : string)
  : option Category :=
  match order with
  | [] => None
  | c :: rest =>
      if matches c ingredient then Some c else first_match rest ingredient
  end.

Definition place (classification : Classification) (c : option Category)
    (ingredient : string) : Classification :=
  let '(mkClassification h u b o) := classification in
  match c with
  | Some Harmful => mkClassification (h ++ [ingredient]) u b o
  | Some UltraProcessed => mkClassification h (u ++ [ingredient]) b o
  | Some Beneficial => mkClassification h u (b ++ [ingredient]) o
  | None => mkClassification h u b (o ++ [ingredient])
  end.

(** Classification with the three sets tested in the order [order]. *)
Definition classify_in_order (order : list Category) (ingredients : list string)
  : Classification :=
  fold_left (fun cl i => place cl (first_match order i) i) ingredients
    (mkClassification [] [] [] []).

Definition priority : list Category := [Harmful; UltraProcessed; Beneficial].

(** At most one of the three sets has a term occurring in the ingredient. *)
Definition at_most_one_set (ingredient : string) : Prop :=
  forall c1 c2,
    matches c1 ingredient = true -> matches c2 ingredient = true -> c1 = c2.

(** Predicates on normalized tokens. *)
Fixpoint all_chars (p : ascii -> bool) (s : string) : bool :=
  match s with
  | EmptyString => true
  | String c r => p c && all_chars p r
  end.

(** No '(' with a ')' somewhere after it. *)
Fixpoint no_paren_pair (s : string) : bool :=
  match s with
  | EmptyString => true
  | String c r =>
      negb (Ascii.eqb c "(" && mem_char ")" r) && no_paren_pair r
  end.

(** Every white-space character is a space that does not follow another
    white-space character ([prev] says whether one precedes [s]). *)
Fixpoint collapsed (prev : bool) (s : string) : bool :=
  match s with
  | EmptyString => true
  | String c r =>
      if is_space c then Ascii.eqb c " " && negb prev && collapsed true r
      else collapsed false r
  end.

Definition not_separator (c : ascii) : bool := negb (is_separator c).
Definition not_upper (c : ascii) : bool := negb (is_upper c).

Definition token_ok (t : string) : bool :=
  (2 <=? String.length t)%nat
  && all_chars not_separator t
  && all_chars not_upper t
  && no_paren_pair t
  && collapsed false t
  && String.eqb (strip t) t.

(** The quantities of the nutrient normalizer: the number and the unit
    read from a value string, the rescaling to 100 g and the
    harmonization of milligrams. *)
Definition parsed_value (value_str : string) : option Q :=
  option_map float (re_search_number value_str).

Definition parsed_unit (value_str : string) : string :=
  match re_search_unit (lower value_str) with
  | Some u => u
  | None => "g"
  end.

Definition output_key (key : string) : string :=
  replace_char " " "_" (lower key).

Definition rescaled (v serving_size_g : Q) : Q :=
  if Qlt_le_dec 0 serving_size_g then v / serving_size_g * 100 else v.

Definition harmonized (key u : string) (p : Q) : Q * string :=
  if decide (u = "mg" /\ lower key <> "sodium" /\ lower key <> "cholesterol")
  then (p / 1000, "g")
  else (p, u).

End Reference.

(** ** Display

    The parts of [display_analysis] that read a score: the colour of the
    band and the split of the drivers by impact. *)

Module Display.

Definition score_color : gmap string string :=
  <["A" := "#00C853"]> (<["B" := "#64DD17"]> (<["C" := "#FFD600"]>
    (<["D" := "#FF8F00"]> (<["E" := "#D32F2F"]> ∅)))).

(** [[d for d in score.drivers if d.impact == "positive"]] *)
Definition positive_drivers (score : HealthScore) : list ScoreDriver :=
  List.filter (fun d => String.eqb (impact d) "positive") (drivers score).

Definition negative_drivers (score : HealthScore) : list ScoreDriver :=
  List.filter (fun d => String.eqb (impact d) "negative") (drivers score).

(** [sep.join(l)] *)
Fixpoint join (sep : string) (l : list string) : string :=
  match l with
  | [] => ""
  | [x] => x
  | x :: rest => x +:+ sep +:+ join sep rest
  end.

End Display.

(** ** Ranges of the scoring rules

    For each of the eight rules, in the order in which [score_product]
    evaluates them: the label of its driver, the direction of its delta,
    bounds on the magnitude the delta can have when the rule fires, and
    the warning emitted with it.  The lower bounds are chosen so that
    they also hold of the rounded float products (12 * 0.3 is
    3.5999999999999996, just below 3.6). *)

Module Ranges.
Import HealthScorer.
Local Open Scope Q_scope.

Record DriverRange := mkDriverRange {
  range_factor : string;
  range_positive : bool;
  range_lo : Q;
  range_hi : Q;
  range_warning : list string
}.

Definition fiber_range := mkDriverRange "High Fiber Content" true 9 10 [].
Definition protein_range := mkDriverRange "Good Protein Source" true (7 # 2) 8 [].
Definition sodium_range :=
  mkDriverRange "High Sodium Content" false 0 15 [sodium_warning].
Definition saturated_fat_range :=
  mkDriverRange "High Saturated Fat" false (15 # 2) 12 [].
Definition total_sugars_range :=
  mkDriverRange "High Sugar Content" false (15 # 2) 10 [].
Definition harmful_range :=
  mkDriverRange "Harmful Additives Present" false 5 15 [additives_warning].
Definition processed_range := mkDriverRange "Highly Processed Food" false 8 8 [].
Definition beneficial_range := mkDriverRange "Beneficial Ingredients" true 3 10 [].

Definition nutrient_ranges : list DriverRange :=
  [ fiber_range; protein_range; sodium_range; saturated_fat_range;
    total_sugars_range ].

Definition ingredient_ranges : list DriverRange :=
  [ harmful_range; processed_range; beneficial_range ].

Definition driver_ranges : list DriverRange :=
  nutrient_ranges ++ ingredient_ranges.

(** The driver [d] is one that the rule of row [r] can record. *)
Definition in_range (r : DriverRange) (d : ScoreDriver) : Prop :=
  factor d = range_factor r /\
  impact d = (if range_positive r then "positive" else "negative") /\
  let m := if range_positive r then score_delta d else - score_delta d in
  0 < m /\ range_lo r <= m <= range_hi r.

(** What one rule does to the accumulators: nothing, or one driver of
    its row, the delta added to the score, and the warning of the row. *)
Definition outcome (r : DriverRange) (st st' : Acc) : Prop :=
  st' = st \/
  exists d,
    in_range r d /\
    acc_score st' = acc_score st + score_delta d /\
    acc_drivers st' = acc_drivers st ++ [d] /\
    acc_warnings st' = acc_warnings st ++ range_warning r.

(** A run of the rules of [rows] is described by which of them fired and
    with which driver. *)
Fixpoint fired_drivers (fired : list (option ScoreDriver)) : list ScoreDriver :=
  match fired with
  | [] => []
  | Some d :: rest => d :: fired_drivers rest
  | None :: rest => fired_drivers rest
  end.

Fixpoint fired_warnings (rows : list DriverRange)
    (fired : list (option ScoreDriver)) : list string :=
  match rows, fired with
  | r :: rows, Some _ :: fired => range_warning r ++ fired_warnings rows fired
  | _ :: rows, None :: fired => fired_warnings rows fired
  | _, _ => []
  end.

Definition fits (r : DriverRange) (o : option ScoreDriver) : Prop :=
  match o with
  | Some d => in_range r d
  | None => True
  end.

Definition realizes (rows : list DriverRange) (fired : list (option ScoreDriver))
    (ds : list ScoreDriver) (ws : list string) : Prop :=
  Forall2 fits rows fired /\
  ds = fired_drivers fired /\
  ws = fired_warnings rows fired.

Fixpoint max_gain (rows : list DriverRange) : Q :=
  match rows with
  | [] => 0
  | r :: rest => (if range_positive r then range_hi r else 0) + max_gain rest
  end.

Fixpoint max_loss (rows : list DriverRange) : Q :=
  match rows with
  | [] => 0
  | r :: rest => (if range_positive r then 0 else range_hi r) + max_loss rest
  end.

(** The contribution of each ingredient rule as a function of the number
    of ingredients in its category. *)
Definition harmful_step (n : nat) : Q :=
  match n with
  | 0%nat => 0
  | 1%nat => -5
  | 2%nat => -10
  | _ => -15
  end.

Definition processed_step (n : nat) : Q :=
  if (n <=? 3)%nat then 0 else -8.

Definition beneficial_step (n : nat) : Q :=
  match n with
  | 0%nat => 0
  | 1%nat => 3
  | 2%nat => 6
  | 3%nat => 9
  | _ => 10
  end.

(** The nutrient keys that the scorer reads. *)
Definition scored_keys : list string :=
  [ "dietary_fiber"; "protein"; "sodium"; "saturated_fat"; "total_sugars" ].

Definition with_ingredients (product : ProductData) (l : list string)
  : ProductData :=
  mkProductData (barcode product) (product_name product) (brand product) l
    (nutrients product) (serving_size_g product) (categories product).

End Ranges.

(** ** The pipeline in Python's own arithmetic

    The modules above compute with exact rationals.  Where a property is
    about the numbers themselves, that is not the program: Python rounds
    every float operation to binary64.  This module embeds the numeric
    code again with Python's numbers: an [int] is a [Z], a [float] is a
    primitive binary64 float, and an operation on an int and a float
    converts the int first.  The ints that meet a float in this code are
    the literals and caps of the rules and small counts, far below 2^63. *)

Module Float64.
Import Text IngredientNormalizer.

#[local] Set Warnings "-inexact-float".

Abbreviation f64 := PrimFloat.float.

(** A Python number. *)
Inductive num := Int (z : Z) | Flt (x : f64).

(** [float(z)] *)
Definition of_int (z : Z) : f64 :=
  if (0 <=? z)%Z then PrimFloat.of_uint63 (Uint63.of_Z z)
  else PrimFloat.opp (PrimFloat.of_uint63 (Uint63.of_Z (- z))).

Definition to_float (a : num) : f64 :=
  match a with
  | Int z => of_int z
  | Flt x => x
  end.

Definition add (a b : num) : num :=
  match a, b with
  | Int x, Int y => Int (x + y)
  | _, _ => Flt (PrimFloat.add (to_float a) (to_float b))
  end.

Definition sub (a b : num) : num :=
  match a, b with
  | Int x, Int y => Int (x - y)
  | _, _ => Flt (PrimFloat.sub (to_float a) (to_float b))
  end.

Definition mul (a b : num) : num :=
  match a, b with
  | Int x, Int y => Int (x * y)
  | _, _ => Flt (PrimFloat.mul (to_float a) (to_float b))
  end.

Definition neg (a : num) : num :=
  match a with
  | Int z => Int (- z)
  | Flt x => Flt (PrimFloat.opp x)
  end.

(** [a < b], and with it [a > b], [a <= b] and [a >= b]; a comparison
    with NaN is false. *)
Definition lt (a b : num) : bool :=
  match a, b with
  | Int x, Int y => (x <? y)%Z
  | _, _ => PrimFloat.ltb (to_float a) (to_float b)
  end.

Definition le (a b : num) : bool :=
  match a, b with
  | Int x, Int y => (x <=? y)%Z
  | _, _ => PrimFloat.leb (to_float a) (to_float b)
  end.

Definition gt (a b : num) : bool := lt b a.
Definition ge (a b : num) : bool := le b a.

(** Python's [min(a, b)]: [b] when [b < a], otherwise [a]. *)
Definition min_ (a b : num) : num := if lt b a then b else a.

(** The integer part of a finite float, toward zero.  On NaN and on the
    infinities, where Python's [int] raises, the value is 0; the scores
    given to it are sums of at most eight deltas bounded by their caps. *)
Definition trunc (x : f64) : Z :=
  match Prim2SF x with
  | S754_finite s m e =>
      let mag := if (0 <=? e)%Z then (Z.pos m * 2 ^ e)%Z
                 else (Z.pos m / 2 ^ (- e))%Z in
      if s then (- mag)%Z else mag
  | _ => 0%Z
  end.

(** [int(a)] *)
Definition int (a : num) : Z :=
  match a with
  | Int z => z
  | Flt x => trunc x
  end.

(** The binary64 float nearest to [n / d], a tie going to the even
    mantissa, for [0 <= n] and [0 < d]: the quotient is taken at the
    exponent that gives it 53 bits (or at the least exponent, for a
    subnormal result) and rounded on the remainder. *)
Definition nearest (n d : Z) : f64 :=
  if (n =? 0)%Z then PrimFloat.zero else
  let scaled e :=
    if (0 <=? e)%Z then (n, d * 2 ^ e)%Z else (n * 2 ^ (- e), d)%Z in
  let e0 := (Z.log2 n - Z.log2 d - 52)%Z in
  let q0 := (fst (scaled e0) / snd (scaled e0))%Z in
  let e := if (q0 <? 2 ^ 52)%Z then (e0 - 1)%Z else e0 in
  let e := Z.max e (-1074) in
  let '(a, b) := scaled e in
  let m := (a / b)%Z in
  let r := (a mod b)%Z in
  let m := if (b <? 2 * r)%Z then (m + 1)%Z
           else if (2 * r =? b)%Z then (if Z.even m then m else (m + 1)%Z)
           else m in
  Z.ldexp (PrimFloat.of_uint63 (Uint63.of_Z m)) e.

(** [float(text)] for a text of digits with at most one point: the
    float nearest to the decimal number that the text writes. *)
Definition float (text : string) : f64 :=
  let q := NutrientNormalizer.float text in
  nearest (Qnum q) (Z.pos (Qden q)).

(** *** NutrientNormalizer *)

Record NutrientInfo := mkNutrientInfo {
  name : string;
  value : f64;
  unit : string;
  per_100g : f64
}.

(** The body of the loop for one item, as in the exact model but with
    the value, the division and the multiplications in binary64. *)
Definition normalize_entry (key value_str : string) (serving_size_g : f64)
  : option (string * NutrientInfo) :=
  match NutrientNormalizer.re_search_number value_str with
  | None => None
  | Some text =>
      let value := float text in
      let unit :=
        match NutrientNormalizer.re_search_unit (lower value_str) with
        | Some u => u
        | None => "g"
        end in
      let per_100g :=
        if PrimFloat.ltb 0 serving_size_g
        then ((value / serving_size_g) * 100)%float
        else value in
      let '(per_100g, unit) :=
        if String.eqb unit "mg"
           && negb (NutrientNormalizer.stays_in_mg (lower key))
        then ((per_100g / 1000)%float, "g")
        else (per_100g, unit) in
      Some (replace_char " " "_" (lower key),
            mkNutrientInfo key value unit per_100g)
  end.

Definition normalize_step (serving_size_g : f64)
    (normalized : gmap string NutrientInfo) (item : string * string)
  : gmap string NutrientInfo :=
  match normalize_entry (fst item) (snd item) serving_size_g with
  | None => normalized
  | Some (k, info) => <[k := info]> normalized
  end.

Definition normalize_nutrients (raw_nutrients : list (string * string))
    (serving_size_g : f64) : gmap string NutrientInfo :=
  fold_left (normalize_step serving_size_g) raw_nutrients ∅.

(** *** Records of the scorer *)

Record ProductData := mkProductData {
  barcode : option string;
  product_name : string;
  brand : string;
  ingredients : list string;
  nutrients : gmap string NutrientInfo;
  serving_size_g : option f64;
  categories : list string
}.

Record ScoreDriver := mkScoreDriver {
  factor : string;
  impact : string;
  score_delta : num;
  source : string
}.

Record HealthScore := mkHealthScore {
  overall_score : Z;
  band : string;
  drivers : list ScoreDriver;
  evidence_sources : list string;
  confidence : string;
  warnings : list string
}.

(** *** HealthScorer *)

Record Acc := mkAcc {
  acc_score : num;
  acc_drivers : list ScoreDriver;
  acc_warnings : list string
}.

Definition fire (st : Acc) (driver : ScoreDriver) : Acc :=
  mkAcc (add (acc_score st) (score_delta driver))
        (acc_drivers st ++ [driver]) (acc_warnings st).

Definition warn (st : Acc) (w : string) : Acc :=
  mkAcc (acc_score st) (acc_drivers st) (acc_warnings st ++ [w]).

Definition fiber_rule (nutrients : gmap string NutrientInfo) (st : Acc) : Acc :=
  match nutrients !! "dietary_fiber" with
  | Some info =>
      let fiber := Flt (per_100g info) in
      if ge fiber (Int 6) then
        let delta := min_ (Int 10) (mul fiber (Flt 1.5)) in
        fire st (mkScoreDriver "High Fiber Content" "positive" delta
                   "Dietary Guidelines for Americans 2020-2025")
      else st
  | None => st
  end.

Definition protein_rule (nutrients : gmap string NutrientInfo) (st : Acc) : Acc :=
  match nutrients !! "protein" with
  | Some info =>
      let protein := Flt (per_100g info) in
      if ge protein (Int 12) then
        let delta := min_ (Int 8) (mul protein (Flt 0.3)) in
        fire st (mkScoreDriver "Good Protein Source" "positive" delta
                   "FDA Nutrition Facts Label Guidelines")
      else st
  | None => st
  end.

Definition sodium_rule (nutrients : gmap string NutrientInfo) (st : Acc) : Acc :=
  match nutrients !! "sodium" with
  | Some info =>
      let sodium_mg := mul (Flt (per_100g info)) (Int 10) in
      if gt sodium_mg (Int 600) then
        let delta :=
          neg (min_ (Int 15) (mul (sub sodium_mg (Int 600)) (Flt 0.01))) in
        warn
          (fire st (mkScoreDriver "High Sodium Content" "negative" delta
                      "American Heart Association Dietary Guidelines"))
          HealthScorer.sodium_warning
      else st
  | None => st
  end.

Definition saturated_fat_rule (nutrients : gmap string NutrientInfo) (st : Acc) : Acc :=
  match nutrients !! "saturated_fat" with
  | Some info =>
      let sat_fat := Flt (per_100g info) in
      if gt sat_fat (Int 5) then
        let delta := neg (min_ (Int 12) (mul sat_fat (Flt 1.5))) in
        fire st (mkScoreDriver "High Saturated Fat" "negative" delta
                   "WHO Global Strategy on Diet, Physical Activity and Health")
      else st
  | None => st
  end.

Definition total_sugars_rule (nutrients : gmap string NutrientInfo) (st : Acc) : Acc :=
  match nutrients !! "total_sugars" with
  | Some info =>
      let sugars := Flt (per_100g info) in
      if gt sugars (Int 15) then
        let delta := neg (min_ (Int 10) (mul sugars (Flt 0.5))) in
        fire st (mkScoreDriver "High Sugar Content" "negative" delta
                   "WHO Global Strategy on Diet, Physical Activity and Health")
      else st
  | None => st
  end.

Definition _score_nutrients (nutrients : gmap string NutrientInfo) : Acc :=
  let st := mkAcc (Int 0) [] [] in
  let st := fiber_rule nutrients st in
  let st := protein_rule nutrients st in
  let st := sodium_rule nutrients st in
  let st := saturated_fat_rule nutrients st in
  total_sugars_rule nutrients st.

(** [len(l)] *)
Definition len (l : list string) : num := Int (Z.of_nat (List.length l)).

Definition harmful_rule (classification : Classification) (st : Acc) : Acc :=
  let harmful_count := len (harmful_additives classification) in
  if gt harmful_count (Int 0) then
    let delta := neg (min_ (Int 15) (mul harmful_count (Int 5))) in
    warn
      (fire st (mkScoreDriver "Harmful Additives Present" "negative" delta
                  "EFSA Scientific Opinions on Food Additives"))
      HealthScorer.additives_warning
  else st.

Definition processed_rule (classification : Classification) (st : Acc) : Acc :=
  let processed_count := len (ultra_processed_markers classification) in
  if gt processed_count (Int 3) then
    let delta := neg (min_ (Int 8) (mul processed_count (Int 2))) in
    fire st (mkScoreDriver "Highly Processed Food" "negative" delta
               "Harvard T.H. Chan School of Public Health")
  else st.

Definition beneficial_rule (classification : Classification) (st : Acc) : Acc :=
  let beneficial_count := len (beneficial_ingredients classification) in
  if gt beneficial_count (Int 0) then
    let delta := min_ (Int 10) (mul beneficial_count (Int 3)) in
    fire st (mkScoreDriver "Beneficial Ingredients" "positive" delta
               "Dietary Guidelines for Americans 2020-2025")
  else st.

Definition _score_ingredients (ingredients : list string) : Acc :=
  let st := mkAcc (Int 0) [] [] in
  let classification := classify_ingredients ingredients in
  let st := harmful_rule classification st in
  let st := processed_rule classification st in
  beneficial_rule classification st.

Definition _calculate_confidence (confidence_factors : list string)
    (product : ProductData) : string :=
  let score := 0%Z in
  let score := if existsb (String.eqb "nutrients") confidence_factors
               then (score + 50)%Z else score in
  let score := if existsb (String.eqb "ingredients") confidence_factors
               then (score + 30)%Z else score in
  let score := if HealthScorer.truthy_opt (barcode product)
               then (score + 10)%Z else score in
  let score := if negb (is_empty (brand product)) then (score + 10)%Z else score in
  if (80 <=? score)%Z then "high"
  else if (60 <=? score)%Z then "medium"
  else "low".

Definition accumulate (product : ProductData) : Acc * list string :=
  let st := mkAcc (Int 50) [] [] in
  let confidence_factors : list string := [] in
  let '(st, confidence_factors) :=
    if bool_decide (nutrients product = ∅) then (st, confidence_factors)
    else
      let r := _score_nutrients (nutrients product) in
      (mkAcc (add (acc_score st) (acc_score r))
             (acc_drivers st ++ acc_drivers r)
             (acc_warnings st ++ acc_warnings r),
       confidence_factors ++ ["nutrients"]) in
  let '(st, confidence_factors) :=
    match ingredients product with
    | [] => (st, confidence_factors)
    | _ =>
      let r := _score_ingredients (ingredients product) in
      (mkAcc (add (acc_score st) (acc_score r))
             (acc_drivers st ++ acc_drivers r)
             (acc_warnings st ++ acc_warnings r),
       confidence_factors ++ ["ingredients"])
    end in
  (st, confidence_factors).

Definition score_product (product : ProductData) : HealthScore :=
  let '(st, confidence_factors) := accumulate product in
  let base_score := acc_score st in
  let final_score := Z.max 0 (Z.min 100 (int base_score)) in
  let band := HealthScorer.band_of final_score in
  let confidence := _calculate_confidence confidence_factors product in
  mkHealthScore final_score band (acc_drivers st) HealthScorer.sources
    confidence (acc_warnings st).

End Float64.

(** ** Reference definitions in Python's arithmetic *)

Module Float64Reference.
Import Text Float64.

#[local] Set Warnings "-inexact-float".

(** The deltas of a list of drivers, added from 0 in the order of the
    list, as a pass of the scorer adds them. *)
Definition total (ds : list ScoreDriver) : num :=
  fold_left add (map score_delta ds) (Int 0).

(** The score before truncation: 50, then the nutrient pass, then the
    ingredient pass. *)
Definition accumulated (product : ProductData) : num :=
  add (add (Int 50) (total (acc_drivers (_score_nutrients (nutrients product)))))
      (total (acc_drivers (_score_ingredients (ingredients product)))).

(** Rounding a float to the nearest integer, a tie going to the even
    neighbour (Python's [round]), for floats below 2^52 in magnitude. *)
Definition round (x : f64) : Z :=
  let t := trunc x in
  let frac := PrimFloat.abs (PrimFloat.sub x (of_int t)) in
  let away := if PrimFloat.ltb x 0 then (t - 1)%Z else (t + 1)%Z in
  if PrimFloat.ltb frac 0.5 then t
  else if PrimFloat.ltb 0.5 frac then away
  else if Z.even t then t else away.

Definition round_num (a : num) : Z :=
  match a with
  | Int z => z
  | Flt x => round x
  end.

(** [min(c, x)] for an integer cap and a float. *)
Definition capped (c : Z) (x : f64) : num :=
  if PrimFloat.ltb x (of_int c) then Flt x else Int c.

(** The table of nutrient rules, written as it is documented. *)
Record NutrientRule := mkNutrientRule {
  rule_key : string;
  rule_fires : f64 -> bool;
  rule_delta : f64 -> num;
  rule_warns : bool
}.

Definition fiber_row : NutrientRule :=
  mkNutrientRule "dietary_fiber"
    (fun v => PrimFloat.leb 6 v)
    (fun v => capped 10 (1.5 * v)) false.

Definition protein_row : NutrientRule :=
  mkNutrientRule "protein"
    (fun v => PrimFloat.leb 12 v)
    (fun v => capped 8 (0.3 * v)) false.

Definition sodium_row : NutrientRule :=
  mkNutrientRule "sodium"
    (fun v => PrimFloat.ltb 600 (v * 10))
    (fun v => neg (capped 15 (0.01 * (v * 10 - 600)))) true.

Definition saturated_fat_row : NutrientRule :=
  mkNutrientRule "saturated_fat"
    (fun v => PrimFloat.ltb 5 v)
    (fun v => neg (capped 12 (1.5 * v))) false.

Definition total_sugars_row : NutrientRule :=
  mkNutrientRule "total_sugars"
    (fun v => PrimFloat.ltb 15 v)
    (fun v => neg (capped 10 (0.5 * v))) false.

Definition nutrient_rules : list NutrientRule :=
  [ fiber_row; protein_row; sodium_row; saturated_fat_row; total_sugars_row ].

Definition triggered (nutrients : gmap string NutrientInfo) (r : NutrientRule)
  : option num :=
  match nutrients !! rule_key r with
  | Some info =>
      if rule_fires r (per_100g info) then Some (rule_delta r (per_100g info))
      else None
  | None => None
  end.

Fixpoint triggered_deltas (nutrients : gmap string NutrientInfo)
    (rules : list NutrientRule) : list num :=
  match rules with
  | [] => []
  | r :: rest =>
      match triggered nutrients r with
      | Some d => d :: triggered_deltas nutrients rest
      | None => triggered_deltas nutrients rest
      end
  end.

Fixpoint triggered_warnings (nutrients : gmap string NutrientInfo)
    (rules : list NutrientRule) : nat :=
  match rules with
  | [] => 0%nat
  | r :: rest =>
      match triggered nutrients r with
      | Some _ =>
          ((if rule_warns r then 1 else 0) + triggered_warnings nutrients rest)%nat
      | None => triggered_warnings nutrients rest
      end
  end.

(** A rule of the code implements row [r]: when the row is triggered it
    records one driver with the row's delta, adds the delta to the score
    and emits the sodium warning if the row warns; otherwise it does
    nothing. *)
Definition implements (nutrients : gmap string NutrientInfo)
    (rule : Acc -> Acc) (r : NutrientRule) : Prop :=
  forall st,
    match triggered nutrients r with
    | Some d =>
        exists driver,
          score_delta driver = d /\
          rule st = if rule_warns r
                    then warn (fire st driver) HealthScorer.sodium_warning
                    else fire st driver
    | None => rule st = st
    end.

(** The accumulators hold the deltas [l], their sum from [base], and [n]
    sodium warnings. *)
Definition holds (base : num) (st : Acc) (l : list num) (n : nat) : Prop :=
  map score_delta (acc_drivers st) = l /\
  acc_score st = fold_left add l base /\
  acc_warnings st = repeat HealthScorer.sodium_warning n.

(** The running score is the starting score and the deltas of the
    drivers recorded so far, added in order. *)
Definition tallied (base : num) (st : Acc) : Prop :=
  acc_score st = fold_left add (map score_delta (acc_drivers st)) base.

(** The quantities of the nutrient normalizer. *)
Definition parsed_value (value_str : string) : option f64 :=
  option_map float (NutrientNormalizer.re_search_number value_str).

Definition rescaled (v serving_size_g : f64) : f64 :=
  if PrimFloat.ltb 0 serving_size_g then v / serving_size_g * 100 else v.

Definition harmonized (key u : string) (p : f64) : f64 * string :=
  if decide (u = "mg" /\ lower key <> "sodium" /\ lower key <> "cholesterol")
  then ((p / 1000)%float, "g")
  else (p, u).

(** The record that the loop stores for an entry read as [v]. *)
Definition stored (key value_str : string) (v serving_size_g : f64)
  : NutrientInfo :=
  let h := harmonized key (Reference.parsed_unit value_str)
             (rescaled v serving_size_g) in
  mkNutrientInfo key v (snd h) (fst h).

(** No entry of [raw] with a number has the output key of [key]. *)
Definition not_overwritten (key : string) (raw : list (string * string)) : Prop :=
  forall key' s',
    In (key', s') raw ->
    Reference.output_key key' = Reference.output_key key ->
    NutrientNormalizer.re_search_number s' = None.

End Float64Reference.

Import Text IngredientNormalizer NutrientNormalizer HealthScorer Reference.
Import Display Ranges.

(** * Properties of the scorer *)

Section ScorerProperties.

Local Open Scope Q_scope.

Lemma min__Qmin (a b : Q) : min_ a b == Qmin a b.
Proof.
  unfold min_. destruct (Qle_bool a b) eqn:E.
  - apply Qle_bool_iff in E. symmetry. now apply Q.min_l.
  - assert (~ a <= b) as H by (rewrite <- Qle_bool_iff; congruence).
    symmetry. apply Q.min_r. apply Qlt_le_weak. now apply Qnot_le_lt.
Qed.

Lemma int_comp (x y : Q) : x == y -> int x = int y.
Proof.
  intros H. unfold int. rewrite H. destruct (Qle_bool 0 y); now rewrite H.
Qed.

Lemma sum_deltas_app (a b : list ScoreDriver) :
  sum_deltas (a ++ b) == sum_deltas a + sum_deltas b.
Proof.
  induction a as [|d a IH]; simpl.
  - ring.
  - rewrite IH. ring.
Qed.

Lemma tallied_fire base st d : tallied base st -> tallied base (fire st d).
Proof.
  unfold tallied, fire; simpl. intros H.
  rewrite sum_deltas_app, H. simpl. ring.
Qed.

Lemma tallied_warn base st w : tallied base st -> tallied base (warn st w).
Proof. exact (fun H => H). Qed.

Lemma tallied_score_nutrients nutrients : tallied 0 (_score_nutrients nutrients).
Proof.
  unfold _score_nutrients.
  assert (tallied 0 (mkAcc 0 [] [])) as H0 by (unfold tallied; simpl; ring).
  revert H0. generalize (mkAcc 0 [] []). intros st0 H0.
  assert (tallied 0 (fiber_rule nutrients st0)) as H1.
  { unfold fiber_rule. destruct (nutrients !! "dietary_fiber"); [|assumption].
    destruct (ge_ _ _); [apply tallied_fire|]; assumption. }
  assert (tallied 0 (protein_rule nutrients (fiber_rule nutrients st0))) as H2.
  { unfold protein_rule at 1. destruct (nutrients !! "protein"); [|assumption].
    destruct (ge_ _ _); [apply tallied_fire|]; assumption. }
  set (st2 := protein_rule _ _) in *.
  assert (tallied 0 (sodium_rule nutrients st2)) as H3.
  { unfold sodium_rule. destruct (nutrients !! "sodium"); [|assumption].
    destruct (gt_ _ _); [apply tallied_warn, tallied_fire|]; assumption. }
  set (st3 := sodium_rule _ _) in *.
  assert (tallied 0 (saturated_fat_rule nutrients st3)) as H4.
  { unfold saturated_fat_rule. destruct (nutrients !! "saturated_fat"); [|assumption].
    destruct (gt_ _ _); [apply tallied_fire|]; assumption. }
  set (st4 := saturated_fat_rule _ _) in *.
  unfold total_sugars_rule. destruct (nutrients !! "total_sugars"); [|assumption].
  destruct (gt_ _ _); [apply tallied_fire|]; assumption.
Qed.

Lemma tallied_score_ingredients ingredients : tallied 0 (_score_ingredients ingredients).
Proof.
  unfold _score_ingredients.
  assert (tallied 0 (mkAcc 0 [] [])) as H0 by (unfold tallied; simpl; ring).
  revert H0. generalize (mkAcc 0 [] []) (classify_ingredients ingredients).
  intros st0 c H0.
  assert (tallied 0 (harmful_rule c st0)) as H1.
  { unfold harmful_rule.
    destruct (gt_ _ _); [apply tallied_warn, tallied_fire|]; assumption. }
  set (st1 := harmful_rule _ _) in *.
  assert (tallied 0 (processed_rule c st1)) as H2.
  { unfold processed_rule. destruct (gt_ _ _); [apply tallied_fire|]; assumption. }
  set (st2 := processed_rule _ _) in *.
  unfold beneficial_rule. destruct (gt_ _ _); [apply tallied_fire|]; assumption.
Qed.

Lemma tallied_merge base st r :
  tallied base st -> tallied 0 r ->
  tallied base (mkAcc (acc_score st + acc_score r)
                      (acc_drivers st ++ acc_drivers r)
                      (acc_warnings st ++ acc_warnings r)).
Proof.
  unfold tallied; simpl. intros H1 H2. rewrite sum_deltas_app, H1, H2. ring.
Qed.

Lemma tallied_accumulate product : tallied 50 (fst (accumulate product)).
Proof.
  unfold accumulate.
  assert (tallied 50 (mkAcc 50 [] [])) as H0 by (unfold tallied; simpl; ring).
  revert H0. generalize (mkAcc 50 [] []). intros st0 H0.
  pose proof (tallied_score_ingredients (ingredients product)) as Hi.
  pose proof (tallied_score_nutrients (nutrients product)) as Hn.
  destruct (bool_decide _); destruct (ingredients product) as [|i rest];
    cbn [fst]; auto using tallied_merge.
Qed.

Lemma score_product_fields product :
  overall_score (score_product product)
    = Z.max 0 (Z.min 100 (int (acc_score (fst (accumulate product))))) /\
  band (score_product product) = band_of (overall_score (score_product product)) /\
  drivers (score_product product) = acc_drivers (fst (accumulate product)).
Proof.
  unfold score_product. destruct (accumulate product) as [st cf]. simpl. auto.
Qed.

Lemma clamp_max_min (x : Z) : Z.max 0 (Z.min 100 x) = clamp x 0 100.
Proof.
  unfold clamp. destruct (Z.ltb_spec x 0); [lia|]. destruct (Z.ltb_spec 100 x); lia.
Qed.

(** C3: for every product the score lies in 0..100 and the band is the
    one the thresholds 80, 65, 50 and 35 assign to it. *)
Theorem score_product_bounds_band (product : ProductData) :
  let s := overall_score (score_product product) in
  let b := band (score_product product) in
  (0 <= s <= 100)%Z /\
  (b = "A" <-> (80 <= s)%Z) /\
  (b = "B" <-> (65 <= s < 80)%Z) /\
  (b = "C" <-> (50 <= s < 65)%Z) /\
  (b = "D" <-> (35 <= s < 50)%Z) /\
  (b = "E" <-> (s < 35)%Z).
Proof.
  destruct (score_product_fields product) as (Hs & Hb & _).
  cbv zeta. rewrite Hb. split; [rewrite Hs; lia|].
  generalize (overall_score (score_product product)). intros s.
  unfold band_of.
  destruct (Z.leb_spec 80 s); [repeat split; intros; try discriminate; lia|].
  destruct (Z.leb_spec 65 s); [repeat split; intros; try discriminate; lia|].
  destruct (Z.leb_spec 50 s); [repeat split; intros; try discriminate; lia|].
  destruct (Z.leb_spec 35 s); repeat split; intros; try discriminate; lia.
Qed.

Lemma len_gt (l : list string) (k : nat) :
  (k < List.length l)%nat -> gt_ (len l) (inject_Z (Z.of_nat k)) = true.
Proof.
  intros H. unfold gt_, len. apply negb_true_iff.
  destruct (Qle_bool _ _) eqn:E; [|reflexivity].
  apply Qle_bool_iff in E. rewrite <- Zle_Qle in E. lia.
Qed.

Lemma min_8_doubled (l : list string) :
  (3 < List.length l)%nat -> min_ 8 (len l * 2) = 8.
Proof.
  intros H. unfold min_, len.
  destruct (Qle_bool _ _) eqn:E; [reflexivity|].
  assert (8 <= inject_Z (Z.of_nat (List.length l)) * 2) as H'.
  { change 8 with (inject_Z 8). change 2 with (inject_Z 2).
    rewrite <- inject_Z_mult, <- Zle_Qle. lia. }
  apply Qle_bool_iff in H'. congruence.
Qed.

Lemma processed_rule_fires (c : Classification) (st : Acc) :
  (3 < List.length (ultra_processed_markers c))%nat ->
  processed_rule c st = fire st processed_driver.
Proof.
  intros H. unfold processed_rule.
  pose proof (len_gt _ 3 H) as G. change (inject_Z (Z.of_nat 3)) with 3 in G.
  rewrite G, (min_8_doubled _ H). reflexivity.
Qed.

Lemma factor_in_fire (st : Acc) (d x : ScoreDriver) :
  In x (acc_drivers (fire st d)) -> In x (acc_drivers st) \/ x = d.
Proof.
  unfold fire; simpl. rewrite in_app_iff. simpl. intuition.
Qed.

End ScorerProperties.

(** * Properties of the ingredient normalizer *)

Section ClassifierProperties.

(** [contains] is the substring test. *)
Lemma prefix_app (a s : string) :
  String.prefix a s = true <-> exists post, s = a +:+ post.
Proof.
  revert s. induction a as [|c a IH]; intros s.
  - split; [eauto | intros _; destruct s; reflexivity].
  - destruct s as [|d s]; simpl; [split; [discriminate | intros [? [=]]]|].
    destruct (Ascii.ascii_dec c d) as [->|Hne].
    + rewrite IH. split; intros [post H]; exists post.
      * rewrite H. reflexivity.
      * change (String d s = String d (a +:+ post)) in H. congruence.
    + split; [discriminate|]. intros [post H].
      change (String d s = String c (a +:+ post)) in H. congruence.
Qed.

Lemma contains_spec (term s : string) :
  contains term s = true <-> exists pre post, s = pre +:+ term +:+ post.
Proof.
  induction s as [|c s IH]; cbn [contains]; rewrite orb_true_iff, prefix_app.
  - split.
    + intros [[post H]|H]; [exists "", post; exact H | discriminate].
    + intros (pre & post & H). left. destruct pre; [eauto | discriminate].
  - rewrite IH. split.
    + intros [[post H]|(pre & post & H)].
      * exists "", post. exact H.
      * exists (String c pre), post. rewrite H. reflexivity.
    + intros ([|d pre] & post & H).
      * left. eauto.
      * right. exists pre, post.
        change (String c s = String d (pre +:+ term +:+ post)) in H. congruence.
Qed.

(** The order in which the terms of a set are visited does not matter. *)
Lemma any_term_existsb (terms : list string) (s : string) :
  any_term terms s = existsb (fun term => contains term s) terms.
Proof.
  induction terms as [|t terms IH]; simpl; [reflexivity|].
  rewrite IH. now destruct (contains t s).
Qed.

Lemma any_term_perm (terms terms' : list string) (s : string) :
  Permutation terms terms' -> any_term terms s = any_term terms' s.
Proof.
  intros H. rewrite !any_term_existsb.
  induction H; simpl; try congruence.
  now rewrite !orb_assoc, (orb_comm (contains y s)).
Qed.

Lemma classify_one_place (cl : Classification) (i : string) :
  classify_one cl i = place cl (first_match priority i) i.
Proof.
  unfold classify_one, place, priority, first_match, matches. simpl terms_of.
  destruct cl as [h u b o].
  destruct (any_term HARMFUL_ADDITIVES (lower i)); [reflexivity|].
  destruct (any_term ULTRA_PROCESSED_MARKERS (lower i)); [reflexivity|].
  destruct (any_term BENEFICIAL_INGREDIENTS (lower i)); reflexivity.
Qed.

Lemma fold_left_ext_in {A B} (f g : A -> B -> A) (l : list B) (a : A) :
  (forall x, In x l -> forall a, f a x = g a x) ->
  fold_left f l a = fold_left g l a.
Proof.
  revert a. induction l as [|x l IH]; intros a H; simpl; [reflexivity|].
  rewrite (H x (or_introl eq_refl)). apply IH. intros y Hy. apply H. now right.
Qed.

Lemma classify_ingredients_priority (ingredients : list string) :
  classify_ingredients ingredients = classify_in_order priority ingredients.
Proof.
  unfold classify_ingredients, classify_in_order.
  apply fold_left_ext_in. intros x _ a. apply classify_one_place.
Qed.

Lemma first_match_Some order i c :
  first_match order i = Some c -> In c order /\ matches c i = true.
Proof.
  induction order as [|d order IH]; simpl; [discriminate|].
  destruct (matches d i) eqn:E.
  - intros [= <-]. auto.
  - intros H. destruct (IH H). auto.
Qed.

Lemma first_match_None order i c :
  first_match order i = None -> In c order -> matches c i = false.
Proof.
  induction order as [|d order IH]; simpl; [contradiction|].
  destruct (matches d i) eqn:E; [discriminate|].
  intros H [<-|Hin]; auto.
Qed.

Lemma first_match_perm order order' i :
  Permutation order order' -> at_most_one_set i ->
  first_match order i = first_match order' i.
Proof.
  intros Hp Hu.
  destruct (first_match order i) as [c|] eqn:E1;
    destruct (first_match order' i) as [c'|] eqn:E2; try reflexivity.
  - apply first_match_Some in E1 as [_ M1]. apply first_match_Some in E2 as [_ M2].
    f_equal. now apply Hu.
  - apply first_match_Some in E1 as [I1 M1].
    rewrite (first_match_None _ _ c E2) in M1; [discriminate|].
    now apply (Permutation_in _ Hp).
  - apply first_match_Some in E2 as [I2 M2].
    rewrite (first_match_None _ _ c' E1) in M2; [discriminate|].
    now apply (Permutation_in _ (Permutation_sym Hp)).
Qed.

(** C4, as stated, fails: "hydrolyzed protein" contains a term of the
    ultra-processed markers ("hydrolyzed protein") and a term of the
    beneficial ingredients ("protein"), and testing the beneficial set
    first moves it to another category. *)
Lemma term_sets_overlap :
  matches UltraProcessed "hydrolyzed protein" = true /\
  matches Beneficial "hydrolyzed protein" = true /\
  ~ at_most_one_set "hydrolyzed protein" /\
  classify_ingredients ["hydrolyzed protein"]
    = mkClassification [] ["hydrolyzed protein"] [] [] /\
  classify_in_order [Beneficial; Harmful; UltraProcessed] ["hydrolyzed protein"]
    = mkClassification [] [] ["hydrolyzed protein"] [].
Proof.
  assert (matches UltraProcessed "hydrolyzed protein" = true) as HU
    by (vm_compute; reflexivity).
  assert (matches Beneficial "hydrolyzed protein" = true) as HB
    by (vm_compute; reflexivity).
  repeat split; try assumption; try (vm_compute; reflexivity).
  intros H. specialize (H _ _ HU HB). discriminate.
Qed.

(** C4, amended: when every ingredient of the list contains terms of at
    most one of the three sets, testing the sets in any other order gives
    the classification that [classify_ingredients] gives. *)
Theorem classify_order_irrelevant_without_overlap
    (order : list Category) (ingredients : list string) :
  Permutation order priority ->
  Forall at_most_one_set ingredients ->
  classify_in_order order ingredients = classify_ingredients ingredients.
Proof.
  intros Hp Hu. rewrite classify_ingredients_priority.
  unfold classify_in_order. apply fold_left_ext_in.
  intros i Hi cl. rewrite List.Forall_forall in Hu.
  now rewrite (first_match_perm _ _ i Hp (Hu i Hi)).
Qed.

(** C4, amended, at a concrete input. *)
Lemma classify_order_irrelevant_without_overlap_witness :
  classify_in_order [Beneficial; Harmful; UltraProcessed]
    ["bht"; "rolled oats"; "emulsifier"; "salt"]
  = classify_ingredients ["bht"; "rolled oats"; "emulsifier"; "salt"].
Proof.
  apply classify_order_irrelevant_without_overlap.
  - unfold priority.
    apply (perm_trans (perm_swap Harmful Beneficial [UltraProcessed])).
    apply perm_skip, perm_swap.
  - repeat constructor; intros [] []; vm_compute; congruence.
Defined.

Lemma classify_fold (l : list string) (h u b o : list string) :
  fold_left classify_one l (mkClassification h u b o)
  = mkClassification
      (h ++ List.filter (fun i => matches Harmful i) l)
      (u ++ List.filter (fun i => negb (matches Harmful i)
                                  && matches UltraProcessed i) l)
      (b ++ List.filter (fun i => negb (matches Harmful i)
                                  && negb (matches UltraProcessed i)
                                  && matches Beneficial i) l)
      (o ++ List.filter (fun i => negb (matches Harmful i)
                                  && negb (matches UltraProcessed i)
                                  && negb (matches Beneficial i)) l).
Proof.
  revert h u b o. induction l as [|i l IH]; intros h u b o.
  - simpl. now rewrite !app_nil_r.
  - cbn [fold_left List.filter]. unfold classify_one at 2, matches.
    cbn [terms_of].
    destruct (any_term HARMFUL_ADDITIVES (lower i)); cbn [negb andb];
      [rewrite IH, <- app_assoc; reflexivity|].
    destruct (any_term ULTRA_PROCESSED_MARKERS (lower i)); cbn [negb andb];
      [rewrite IH, <- app_assoc; reflexivity|].
    destruct (any_term BENEFICIAL_INGREDIENTS (lower i)); cbn [negb andb];
      rewrite IH, <- app_assoc; reflexivity.
Qed.

Lemma four_way_partition {A} (p q r : A -> bool) (l : list A) :
  Permutation
    (List.filter p l
     ++ List.filter (fun i => negb (p i) && q i) l
     ++ List.filter (fun i => negb (p i) && negb (q i) && r i) l
     ++ List.filter (fun i => negb (p i) && negb (q i) && negb (r i)) l) l.
Proof.
  induction l as [|x l IH]; simpl; [constructor|].
  destruct (p x); simpl; [now constructor|].
  destruct (q x); simpl;
    [symmetry; apply Permutation_cons_app; now symmetry|].
  destruct (r x); simpl; symmetry.
  - rewrite app_assoc. apply Permutation_cons_app. rewrite <- app_assoc.
    now symmetry.
  - rewrite 2 app_assoc. apply Permutation_cons_app. rewrite <- 2 app_assoc.
    now symmetry.
Qed.

(** C5: every ingredient goes to the first category, in the order
    harmful, ultra-processed, beneficial, that has a term occurring in
    it, and to [other] when none has; the four lists together hold
    each ingredient exactly once; and the documented example is
    classified as documented. *)
Theorem classify_first_match_wins (ingredients : list string) :
  let c := classify_ingredients ingredients in
  harmful_additives c
    = List.filter (fun i => matches Harmful i) ingredients /\
  ultra_processed_markers c
    = List.filter (fun i => negb (matches Harmful i)
                            && matches UltraProcessed i) ingredients /\
  beneficial_ingredients c
    = List.filter (fun i => negb (matches Harmful i)
                            && negb (matches UltraProcessed i)
                            && matches Beneficial i) ingredients /\
  other c
    = List.filter (fun i => negb (matches Harmful i)
                            && negb (matches UltraProcessed i)
                            && negb (matches Beneficial i)) ingredients /\
  Permutation
    (harmful_additives c ++ ultra_processed_markers c
     ++ beneficial_ingredients c ++ other c) ingredients /\
  normalize_ingredient_list (Some "Sodium Nitrite, Whole Wheat Flour, Salt")
    = ["sodium nitrite"; "whole wheat flour"; "salt"] /\
  classify_ingredients
    (normalize_ingredient_list (Some "Sodium Nitrite, Whole Wheat Flour, Salt"))
    = mkClassification ["sodium nitrite"] [] ["whole wheat flour"] ["salt"].
Proof.
  cbv zeta. unfold classify_ingredients at 1 2 3 4 5 6 7 8.
  rewrite classify_fold. simpl harmful_additives.
  simpl ultra_processed_markers. simpl beneficial_ingredients. simpl other.
  repeat split; try reflexivity.
  apply four_way_partition.
Qed.

End ClassifierProperties.

Section NormalizerProperties.

(** The loop is a map followed by a filter. *)
Lemma normalize_loop_filter (pieces normalized : list string) :
  normalize_loop pieces normalized
  = normalized ++ List.filter keep (map clean pieces).
Proof.
  revert normalized. induction pieces as [|x l IH]; intros acc; simpl.
  - now rewrite app_nil_r.
  - rewrite IH. destruct (keep (clean x)); [|reflexivity].
    now rewrite <- app_assoc.
Qed.

Lemma normalize_ingredient_list_filter (raw : string) :
  normalize_ingredient_list (Some raw)
  = List.filter keep (map clean (re_split (lower raw))).
Proof.
  unfold normalize_ingredient_list. destruct raw as [|c r].
  - reflexivity.
  - cbn [is_empty]. apply normalize_loop_filter.
Qed.

Lemma lower_app (a b : string) : lower (a +:+ b) = lower a +:+ lower b.
Proof. induction a as [|c a IH]; simpl; [reflexivity | now rewrite IH]. Qed.

Lemma re_split_nonempty (s : string) : re_split s <> [].
Proof.
  induction s as [|c s IH]; simpl; [discriminate|].
  destruct (is_separator c); [discriminate|].
  destruct (re_split s); discriminate.
Qed.

Lemma re_split_app (a b : string) (sep : ascii) :
  is_separator sep = true ->
  re_split (a +:+ String sep b) = re_split a ++ re_split b.
Proof.
  intros Hsep. induction a as [|c a IH]; simpl.
  - now rewrite Hsep.
  - rewrite IH. destruct (is_separator c); [reflexivity|].
    pose proof (re_split_nonempty a) as Hne.
    destruct (re_split a); [contradiction | reflexivity].
Qed.

Lemma normalize_ingredient_list_app (a b : string) (sep : ascii) :
  is_separator sep = true -> lower_char sep = sep ->
  normalize_ingredient_list (Some (a +:+ String sep b))
  = normalize_ingredient_list (Some a) ++ normalize_ingredient_list (Some b).
Proof.
  intros Hsep Hlow. rewrite !normalize_ingredient_list_filter.
  rewrite lower_app. cbn [lower]. rewrite Hlow, (re_split_app _ _ _ Hsep).
  now rewrite List.map_app, List.filter_app.
Qed.

(** Characters that survive each cleaning step come from the input, or
    are the space that replaces a run of white space. *)
Lemma all_chars_lstrip p s : all_chars p s = true -> all_chars p (lstrip s) = true.
Proof.
  induction s as [|c s IH]; simpl; [auto|].
  intros H. apply andb_true_iff in H as [Hc Hs].
  destruct (is_space c); [auto|]. simpl. now rewrite Hc, Hs.
Qed.

Lemma all_chars_rstrip p s : all_chars p s = true -> all_chars p (rstrip s) = true.
Proof.
  induction s as [|c s IH]; simpl; [auto|].
  intros H. apply andb_true_iff in H as [Hc Hs].
  destruct (is_space c && is_empty (rstrip s)); [reflexivity|].
  simpl. now rewrite Hc, IH.
Qed.

Lemma all_chars_strip p s : all_chars p s = true -> all_chars p (strip s) = true.
Proof. intros H. now apply all_chars_rstrip, all_chars_lstrip. Qed.

Lemma all_chars_sub_parens p b s :
  all_chars p s = true -> all_chars p (sub_parens b s) = true.
Proof.
  revert b. induction s as [|c s IH]; intros b; simpl; [auto|].
  intros H. apply andb_true_iff in H as [Hc Hs].
  destruct b.
  - destruct (Ascii.eqb c ")"); auto.
  - destruct (Ascii.eqb c "(" && mem_char ")" s); [auto|].
    simpl. now rewrite Hc, IH.
Qed.

Lemma all_chars_sub_spaces p b s :
  p " "%char = true ->
  all_chars p s = true -> all_chars p (sub_spaces b s) = true.
Proof.
  intros Hsp. revert b. induction s as [|c s IH]; intros b; simpl; [auto|].
  intros H. apply andb_true_iff in H as [Hc Hs].
  destruct (is_space c).
  - destruct b; [auto|]. simpl. now rewrite Hsp, IH.
  - simpl. now rewrite Hc, IH.
Qed.

Lemma all_chars_clean p s :
  p " "%char = true -> all_chars p s = true -> all_chars p (clean s) = true.
Proof.
  intros Hsp H. unfold clean.
  now apply all_chars_strip, all_chars_sub_spaces, all_chars_sub_parens,
    all_chars_strip.
Qed.

Lemma all_chars_re_split p s :
  all_chars p s = true -> Forall (fun t => all_chars p t = true) (re_split s).
Proof.
  induction s as [|c s IH]; simpl.
  - repeat constructor.
  - intros H. apply andb_true_iff in H as [Hc Hs]. specialize (IH Hs).
    destruct (is_separator c); [constructor; [reflexivity | assumption]|].
    destruct (re_split s) as [|t l]; [repeat constructor; simpl; now rewrite Hc|].
    inversion IH; subst. constructor; [simpl; now rewrite Hc | assumption].
Qed.

Lemma no_separator_re_split s :
  Forall (fun t => all_chars not_separator t = true) (re_split s).
Proof.
  induction s as [|c s IH]; simpl.
  - repeat constructor.
  - destruct (is_separator c) eqn:E; [constructor; [reflexivity | assumption]|].
    destruct (re_split s) as [|t l];
      [repeat constructor; simpl; unfold not_separator; now rewrite E|].
    inversion IH; subst.
    constructor; [simpl; unfold not_separator at 1; now rewrite E | assumption].
Qed.

Lemma not_upper_lower_char c : not_upper (lower_char c) = true.
Proof. destruct c as [[] [] [] [] [] [] [] []]; reflexivity. Qed.

Lemma not_upper_lower s : all_chars not_upper (lower s) = true.
Proof.
  induction s as [|c s IH]; simpl; [reflexivity|].
  now rewrite not_upper_lower_char, IH.
Qed.

(** Parentheses. *)
Lemma mem_char_sub_parens x b s :
  mem_char x (sub_parens b s) = true -> mem_char x s = true.
Proof.
  revert b. induction s as [|c s IH]; intros b; simpl; [auto|].
  destruct b.
  - destruct (Ascii.eqb c ")"); intros H; apply IH in H; rewrite H;
      apply orb_true_r.
  - destruct (Ascii.eqb c "(" && mem_char ")" s).
    + intros H; apply IH in H; rewrite H; apply orb_true_r.
    + simpl. intros H. apply orb_true_iff in H as [H|H].
      * now rewrite H.
      * apply IH in H. rewrite H. apply orb_true_r.
Qed.

Lemma no_paren_pair_sub_parens b s : no_paren_pair (sub_parens b s) = true.
Proof.
  revert b. induction s as [|c s IH]; intros b; simpl; [reflexivity|].
  destruct b.
  - destruct (Ascii.eqb c ")"); apply IH.
  - destruct (Ascii.eqb c "(") eqn:Ec; simpl.
    + destruct (mem_char ")" s) eqn:Em; [apply IH|].
      simpl. rewrite Ec, IH. simpl.
      destruct (mem_char ")" (sub_parens false s)) eqn:Em'; [|reflexivity].
      apply mem_char_sub_parens in Em'. congruence.
    + rewrite Ec, IH. reflexivity.
Qed.

Lemma mem_char_app x a b :
  mem_char x (a +:+ b) = mem_char x a || mem_char x b.
Proof.
  induction a as [|c a IH]; [reflexivity|].
  change (mem_char x (String c (a +:+ b))
          = mem_char x (String c a) || mem_char x b).
  simpl. now rewrite IH, orb_assoc.
Qed.

(** A parenthetical without an inner ')' is removed whole. *)
Lemma sub_parens_skip mid post :
  mem_char ")" mid = false ->
  sub_parens true (mid +:+ String ")" post) = sub_parens false post.
Proof.
  induction mid as [|c mid IH]; intros H.
  - reflexivity.
  - simpl in H. apply orb_false_iff in H as [Hc Hm].
    change (sub_parens true (String c (mid +:+ String ")" post))
            = sub_parens false post).
    simpl. rewrite Hc. auto.
Qed.

Lemma sub_parens_removes pre mid post :
  mem_char "(" pre = false -> mem_char ")" mid = false ->
  sub_parens false (pre +:+ String "(" (mid +:+ String ")" post))
  = pre +:+ sub_parens false post.
Proof.
  intros Hpre Hmid. induction pre as [|c pre IH].
  - change (sub_parens false (String "(" (mid +:+ String ")" post))
            = sub_parens false post).
    simpl. rewrite mem_char_app. simpl. rewrite orb_true_r.
    now apply sub_parens_skip.
  - simpl in Hpre. apply orb_false_iff in Hpre as [Hc Hp].
    change (sub_parens false
              (String c (pre +:+ String "(" (mid +:+ String ")" post)))
            = String c (pre +:+ sub_parens false post)).
    simpl. rewrite Hc. simpl. now rewrite IH.
Qed.

Lemma mem_close_sub_spaces b s :
  mem_char ")" (sub_spaces b s) = mem_char ")" s.
Proof.
  revert b. induction s as [|c s IH]; intros b; simpl; [reflexivity|].
  destruct (is_space c) eqn:Es.
  - assert (Ascii.eqb c ")" = false) as ->.
    { destruct (Ascii.eqb_spec c ")"); [subst; discriminate | reflexivity]. }
    destruct b; simpl; apply IH.
  - simpl. now rewrite IH.
Qed.

Lemma no_paren_pair_sub_spaces b s :
  no_paren_pair s = true -> no_paren_pair (sub_spaces b s) = true.
Proof.
  revert b. induction s as [|c s IH]; intros b; simpl; [auto|].
  intros H. apply andb_true_iff in H as [Hc Hs].
  destruct (is_space c) eqn:Es.
  - destruct b; [auto|]. simpl. auto.
  - simpl. now rewrite mem_close_sub_spaces, Hc, IH.
Qed.

Lemma no_paren_pair_lstrip s :
  no_paren_pair s = true -> no_paren_pair (lstrip s) = true.
Proof.
  induction s as [|c s IH]; simpl; [auto|].
  intros H. destruct (is_space c); [|exact H].
  apply andb_true_iff in H as [_ Hs]. auto.
Qed.

Lemma mem_close_rstrip s : mem_char ")" (rstrip s) = mem_char ")" s.
Proof.
  induction s as [|c s IH]; simpl; [reflexivity|].
  destruct (is_space c) eqn:Es; simpl.
  - assert (Ascii.eqb c ")" = false) as Hc.
    { destruct (Ascii.eqb_spec c ")"); [subst; discriminate | reflexivity]. }
    rewrite Hc. simpl. rewrite <- IH.
    destruct (rstrip s); simpl; [reflexivity | now rewrite Hc].
  - now rewrite IH.
Qed.

Lemma no_paren_pair_rstrip s :
  no_paren_pair s = true -> no_paren_pair (rstrip s) = true.
Proof.
  induction s as [|c s IH]; simpl; [auto|].
  intros H. apply andb_true_iff in H as [Hc Hs].
  destruct (is_space c && is_empty (rstrip s)); [reflexivity|].
  simpl. now rewrite mem_close_rstrip, Hc, IH.
Qed.

Lemma no_paren_pair_clean s : no_paren_pair (clean s) = true.
Proof.
  unfold clean, strip.
  apply no_paren_pair_rstrip, no_paren_pair_lstrip, no_paren_pair_sub_spaces,
    no_paren_pair_sub_parens.
Qed.

(** White space. *)
Lemma collapsed_sub_spaces b s : collapsed b (sub_spaces b s) = true.
Proof.
  revert b. induction s as [|c s IH]; intros b; simpl; [reflexivity|].
  destruct (is_space c) eqn:Es.
  - destruct b; [apply IH|]. simpl. apply IH.
  - simpl. rewrite Es. apply IH.
Qed.

Lemma collapsed_lstrip b b' s :
  collapsed b s = true -> collapsed b' (lstrip s) = true.
Proof.
  revert b. induction s as [|c s IH]; intros b; simpl; [auto|].
  destruct (is_space c) eqn:Es.
  - intros H. apply andb_true_iff in H as [_ H]. eauto.
  - simpl. now rewrite Es.
Qed.

Lemma collapsed_rstrip b s :
  collapsed b s = true -> collapsed b (rstrip s) = true.
Proof.
  revert b. induction s as [|c s IH]; intros b; simpl; [auto|].
  destruct (is_space c) eqn:Es; simpl.
  - intros H. apply andb_true_iff in H as [H1 H2].
    destruct (is_empty (rstrip s)); [reflexivity|].
    simpl. rewrite Es, H1. simpl. auto.
  - intros H. simpl. rewrite Es. auto.
Qed.

Lemma collapsed_clean s : collapsed false (clean s) = true.
Proof.
  unfold clean, strip.
  apply collapsed_rstrip, (collapsed_lstrip false), collapsed_sub_spaces.
Qed.

(** [strip] is idempotent. *)
Lemma rstrip_idem s : rstrip (rstrip s) = rstrip s.
Proof.
  induction s as [|c s IH]; simpl; [reflexivity|].
  destruct (is_space c && is_empty (rstrip s)) eqn:E; [reflexivity|].
  simpl. now rewrite IH, E.
Qed.

Lemma lstrip_rstrip_lstrip s : lstrip (rstrip (lstrip s)) = rstrip (lstrip s).
Proof.
  induction s as [|c s IH]; simpl; [reflexivity|].
  destruct (is_space c) eqn:Es; [exact IH|].
  simpl. rewrite Es. simpl. now rewrite Es.
Qed.

Lemma strip_idem s : strip (strip s) = strip s.
Proof. unfold strip. now rewrite lstrip_rstrip_lstrip, rstrip_idem. Qed.

Lemma strip_clean s : strip (clean s) = clean s.
Proof. unfold clean. apply strip_idem. Qed.

Lemma keep_length t : keep t = true -> (2 <=? String.length t)%nat = true.
Proof.
  unfold keep. intros H. apply andb_true_iff in H as [_ H].
  apply Nat.ltb_lt in H. apply Nat.leb_le. lia.
Qed.

Lemma token_ok_clean piece :
  all_chars not_separator piece = true ->
  all_chars not_upper piece = true ->
  keep (clean piece) = true ->
  token_ok (clean piece) = true.
Proof.
  intros Hsep Hup Hk. unfold token_ok.
  rewrite (keep_length _ Hk).
  rewrite (all_chars_clean not_separator piece eq_refl Hsep).
  rewrite (all_chars_clean not_upper piece eq_refl Hup).
  rewrite no_paren_pair_clean, collapsed_clean, strip_clean.
  simpl. apply String.eqb_refl.
Qed.

Lemma normalize_tokens_ok (raw : string) :
  Forall (fun t => token_ok t = true) (normalize_ingredient_list (Some raw)).
Proof.
  rewrite normalize_ingredient_list_filter.
  pose proof (no_separator_re_split (lower raw)) as Hsep.
  pose proof (all_chars_re_split not_upper _ (not_upper_lower raw)) as Hup.
  induction (re_split (lower raw)) as [|x l IH]; simpl; [constructor|].
  inversion Hsep; subst. inversion Hup; subst.
  destruct (keep (clean x)) eqn:Hk; [constructor|]; auto using token_ok_clean.
Qed.

(** C9: [normalize_ingredient_list] returns the empty list for an absent
    or empty input; otherwise it lower-cases the input, splits it at each
    ',' and ';', cleans every piece and keeps the cleaned pieces of more
    than one character, in order; so the result for two texts joined by a
    separator is the two results in sequence, and every token returned has
    at least two characters, no separator, no upper-case letter, no '('
    with a ')' after it, white space only as single inner spaces. *)
Theorem normalize_ingredient_list_pipeline (a b : string) :
  normalize_ingredient_list None = [] /\
  normalize_ingredient_list (Some "") = [] /\
  normalize_ingredient_list
    (Some "Enriched Flour (Wheat), Salt;  Whole   Oats ,x")
    = ["enriched flour"; "salt"; "whole oats"] /\
  normalize_ingredient_list (Some a)
    = List.filter keep (map clean (re_split (lower a))) /\
  normalize_ingredient_list (Some (a +:+ "," +:+ b))
    = normalize_ingredient_list (Some a) ++ normalize_ingredient_list (Some b) /\
  normalize_ingredient_list (Some (a +:+ ";" +:+ b))
    = normalize_ingredient_list (Some a) ++ normalize_ingredient_list (Some b) /\
  Forall (fun t => token_ok t = true) (normalize_ingredient_list (Some a)).
Proof.
  repeat split; try reflexivity.
  - apply normalize_ingredient_list_filter.
  - apply (normalize_ingredient_list_app a b ","); reflexivity.
  - apply (normalize_ingredient_list_app a b ";"); reflexivity.
  - apply normalize_tokens_ok.
Qed.

End NormalizerProperties.

(** * Properties of the nutrient normalizer *)

Section NutrientProperties.

Local Open Scope Q_scope.

Lemma positive_serving_spec (serving : Q) :
  positive_serving serving = if Qlt_le_dec 0 serving then true else false.
Proof.
  unfold positive_serving. destruct (Qlt_le_dec 0 serving) as [H|H].
  - destruct (Qle_bool serving 0) eqn:E; [|reflexivity].
    apply Qle_bool_iff in E. exfalso. exact (Qlt_not_le _ _ H E).
  - apply Qle_bool_iff in H. now rewrite H.
Qed.

Lemma stays_in_mg_spec (k : string) :
  stays_in_mg k = true <-> k = "sodium" \/ k = "cholesterol".
Proof.
  unfold stays_in_mg. rewrite orb_true_iff, !String.eqb_eq. reflexivity.
Qed.

Lemma harmonized_spec (key u : string) (p : Q) :
  (if String.eqb u "mg" && negb (stays_in_mg (lower key))
   then (p / 1000, "g") else (p, u))
  = harmonized key u p.
Proof.
  unfold harmonized.
  destruct (String.eqb_spec u "mg") as [Hu|Hu]; simpl.
  - destruct (stays_in_mg (lower key)) eqn:Hs; simpl.
    + apply stays_in_mg_spec in Hs.
      destruct (decide _) as [(_ & H1 & H2)|_]; [tauto | reflexivity].
    + destruct (decide _) as [_|H]; [reflexivity|].
      exfalso. apply H. repeat split; [assumption| |];
        intros E; assert (stays_in_mg (lower key) = true)
          by (apply stays_in_mg_spec; auto); congruence.
  - destruct (decide _) as [(H & _)|_]; [contradiction | reflexivity].
Qed.

Lemma normalize_entry_spec key value_str serving v :
  parsed_value value_str = Some v ->
  normalize_entry key value_str serving
  = Some (output_key key,
          mkNutrientInfo key v
            (snd (harmonized key (parsed_unit value_str) (rescaled v serving)))
            (fst (harmonized key (parsed_unit value_str) (rescaled v serving)))).
Proof.
  unfold parsed_value, normalize_entry, parsed_unit, rescaled, output_key.
  destruct (re_search_number value_str) as [text|]; [|discriminate].
  intros [= <-]. rewrite positive_serving_spec, harmonized_spec.
  destruct (Qlt_le_dec 0 serving); now destruct (harmonized _ _ _).
Qed.

Lemma unit_at_cases s u :
  unit_at s = Some u -> u = "mg" \/ u = "g" \/ u = "kcal" \/ u = "cal".
Proof.
  unfold unit_at.
  destruct (String.prefix "mg" s); [intros [= <-]; auto|].
  destruct (String.prefix "g" s); [intros [= <-]; auto|].
  destruct (String.prefix "kcal" s); [intros [= <-]; auto|].
  destruct (String.prefix "cal" s); [intros [= <-]; auto 6|discriminate].
Qed.

Lemma re_search_unit_cases s u :
  re_search_unit s = Some u -> u = "mg" \/ u = "g" \/ u = "kcal" \/ u = "cal".
Proof.
  induction s as [|c s IH].
  - simpl. discriminate.
  - cbn [re_search_unit]. destruct (unit_at (String c s)) eqn:E; [|exact IH].
    intros [= <-]. eapply unit_at_cases, E.
Qed.

Lemma parsed_unit_cases s :
  parsed_unit s = "mg" \/ parsed_unit s = "g" \/ parsed_unit s = "kcal"
  \/ parsed_unit s = "cal".
Proof.
  unfold parsed_unit. destruct (re_search_unit (lower s)) eqn:E; [|auto].
  eapply re_search_unit_cases, E.
Qed.

Lemma normalize_entry_Some key s serving k info :
  normalize_entry key s serving = Some (k, info) ->
  exists v,
    parsed_value s = Some v /\ k = output_key key /\ name info = key /\
    (per_100g info, unit info) = harmonized key (parsed_unit s) (rescaled v serving).
Proof.
  destruct (parsed_value s) as [v|] eqn:E.
  - rewrite (normalize_entry_spec _ _ _ _ E). intros [= <- <-].
    exists v. simpl. repeat split. now destruct (harmonized _ _ _).
  - unfold parsed_value in E. unfold normalize_entry.
    destruct (re_search_number s); [discriminate|discriminate].
Qed.

Lemma normalize_entry_None key s serving :
  re_search_number s = None -> normalize_entry key s serving = None.
Proof. intros H. unfold normalize_entry. now rewrite H. Qed.

Lemma harmonized_unit key u p :
  (u = "mg" \/ u = "g" \/ u = "kcal" \/ u = "cal") ->
  let u' := snd (harmonized key u p) in
  (u' = "g" \/ u' = "mg" \/ u' = "kcal" \/ u' = "cal") /\
  (u' = "mg" -> lower key = "sodium" \/ lower key = "cholesterol").
Proof.
  intros Hu. unfold harmonized.
  destruct (decide _) as [(E & H1 & H2)|H]; simpl.
  - split; [auto | discriminate].
  - split; [tauto|]. intros ->.
    destruct (decide (lower key = "sodium")); [auto|].
    destruct (decide (lower key = "cholesterol")); [auto|].
    exfalso. apply H. auto.
Qed.

(** A record found in the output was stored by some item of the input. *)
Lemma fold_normalize_lookup raw serving (m : gmap string NutrientInfo) k info :
  fold_left (normalize_step serving) raw m !! k = Some info ->
  m !! k = Some info \/
  exists key s, In (key, s) raw /\ normalize_entry key s serving = Some (k, info).
Proof.
  revert m. induction raw as [|[key s] raw IH]; intros m; simpl; [auto|].
  intros H. apply IH in H as [H|(key' & s' & Hin & He)].
  - unfold normalize_step in H. simpl in H.
    destruct (normalize_entry key s serving) as [[k' info']|] eqn:E; [|auto].
    destruct (decide (k' = k)) as [->|Hne].
    + rewrite lookup_insert_eq in H. injection H as <-. right. eauto.
    + rewrite lookup_insert_ne in H by assumption. auto.
  - right. eauto.
Qed.

Lemma normalize_nutrients_lookup raw serving k info :
  normalize_nutrients raw serving !! k = Some info ->
  exists key s, In (key, s) raw /\ normalize_entry key s serving = Some (k, info).
Proof.
  intros H. apply fold_normalize_lookup in H as [H|H]; [|assumption].
  rewrite lookup_empty in H. discriminate.
Qed.

(** A key that is present stays present through the rest of the loop. *)
Lemma fold_normalize_keeps raw serving (m : gmap string NutrientInfo) k :
  is_Some (m !! k) -> is_Some (fold_left (normalize_step serving) raw m !! k).
Proof.
  revert m. induction raw as [|[key s] raw IH]; intros m H; simpl; [assumption|].
  apply IH. unfold normalize_step. simpl.
  destruct (normalize_entry key s serving) as [[k' info']|]; [|assumption].
  destruct (decide (k' = k)) as [->|Hne].
  - rewrite lookup_insert_eq. eauto.
  - now rewrite lookup_insert_ne.
Qed.

Lemma normalize_nutrients_present raw serving key s :
  In (key, s) raw -> re_search_number s <> None ->
  is_Some (normalize_nutrients raw serving !! output_key key).
Proof.
  unfold normalize_nutrients. generalize (∅ : gmap string NutrientInfo).
  induction raw as [|[key' s'] raw IH]; intros m Hin Hs; [contradiction|].
  simpl. destruct Hin as [[= -> ->]|Hin]; [|now apply IH].
  apply fold_normalize_keeps. unfold normalize_step. simpl.
  destruct (parsed_value s) as [v|] eqn:E.
  - rewrite (normalize_entry_spec _ _ _ _ E), lookup_insert_eq. eauto.
  - unfold parsed_value in E. destruct (re_search_number s);
      [discriminate | contradiction].
Qed.

Lemma normalize_nutrients_skip raw1 raw2 key s serving :
  re_search_number s = None ->
  normalize_nutrients (raw1 ++ (key, s) :: raw2) serving
  = normalize_nutrients (raw1 ++ raw2) serving.
Proof.
  intros H. unfold normalize_nutrients. rewrite !fold_left_app. simpl.
  unfold normalize_step at 2. simpl. now rewrite (normalize_entry_None _ _ _ H).
Qed.

(** C7, as stated, fails: a value written in cal keeps the unit cal,
    which is none of g, mg and kcal. *)
Lemma cal_unit_is_kept :
  exists info,
    normalize_nutrients [("calories", "250 cal")] 100 !! "calories" = Some info /\
    unit info = "cal" /\
    ~ In (unit info) ["g"; "mg"; "kcal"].
Proof.
  eexists. split; [vm_compute; reflexivity|]. split; [reflexivity|].
  simpl. intros [H|[H|[H|[]]]]; discriminate.
Qed.

(** C7, amended: every record produced by [normalize_nutrients] has its
    unit among g, mg, kcal and cal, and has the unit mg only when its
    lower-cased key is sodium or cholesterol; every other nutrient is in
    g, kcal or cal. *)
Theorem normalize_nutrients_units
    (raw : list (string * string)) (serving_size_g : Q)
    (k : string) (info : NutrientInfo) :
  normalize_nutrients raw serving_size_g !! k = Some info ->
  In (unit info) ["g"; "mg"; "kcal"; "cal"] /\
  (unit info = "mg" ->
   lower (name info) = "sodium" \/ lower (name info) = "cholesterol").
Proof.
  intros H. apply normalize_nutrients_lookup in H as (key & s & _ & He).
  apply normalize_entry_Some in He as (v & _ & _ & Hn & Hh).
  pose proof (harmonized_unit key (parsed_unit s) (rescaled v serving_size_g)
                (parsed_unit_cases s)) as [H1 H2].
  rewrite <- Hh in H1, H2. simpl in H1, H2. rewrite Hn.
  split; [|exact H2].
  destruct H1 as [E|[E|[E|E]]]; rewrite E; simpl; auto 6.
Qed.

(** C7, amended, at a concrete input: calcium given in mg is stored in g. *)
Lemma normalize_nutrients_units_witness :
  exists info,
    normalize_nutrients [("Calcium", "120mg")] 30 !! "calcium" = Some info /\
    In (unit info) ["g"; "mg"; "kcal"; "cal"] /\
    (unit info = "mg" ->
     lower (name info) = "sodium" \/ lower (name info) = "cholesterol").
Proof.
  eexists. split; [vm_compute; reflexivity|].
  apply (normalize_nutrients_units [("Calcium", "120mg")] 30 "calcium").
  vm_compute. reflexivity.
Defined.

(** C8, as stated, fails: the entry "Total Fat" has no number and is
    skipped, yet its key total_fat is in the output, stored by the entry
    "total_fat". *)
Lemma skipped_key_still_present :
  re_search_number "n/a" = None /\
  output_key "Total Fat" = "total_fat" /\
  exists info,
    normalize_nutrients [("Total Fat", "n/a"); ("total_fat", "5g")] 100
      !! output_key "Total Fat" = Some info.
Proof.
  split; [reflexivity|]. split; [reflexivity|].
  eexists. vm_compute. reflexivity.
Qed.

(** C8, amended: [normalize_nutrients] is total; an entry whose value
    string has no number is skipped, that is, the output is the output
    for the input without that entry, and its key is absent unless
    another entry with a number has the same output key; every entry
    with a number has its output key present; and a value string with a
    number and none of the tokens mg, g, kcal and cal is stored with the
    unit g. *)
Theorem normalize_nutrients_skips_unparsable
    (raw1 raw2 : list (string * string)) (key value_str : string)
    (serving_size_g : Q) :
  re_search_number value_str = None ->
  normalize_nutrients (raw1 ++ (key, value_str) :: raw2) serving_size_g
    = normalize_nutrients (raw1 ++ raw2) serving_size_g /\
  ((forall key' s', In (key', s') (raw1 ++ raw2) ->
                    output_key key' = output_key key ->
                    re_search_number s' = None) ->
   normalize_nutrients (raw1 ++ (key, value_str) :: raw2) serving_size_g
     !! output_key key = None) /\
  (forall key' s', In (key', s') (raw1 ++ raw2) ->
                   re_search_number s' <> None ->
                   is_Some (normalize_nutrients
                              (raw1 ++ (key, value_str) :: raw2) serving_size_g
                            !! output_key key')) /\
  (forall key' s', re_search_number s' <> None ->
                   re_search_unit (lower s') = None ->
                   exists info,
                     normalize_nutrients [(key', s')] serving_size_g
                       !! output_key key' = Some info /\
                     unit info = "g").
Proof.
  intros Hnone. rewrite (normalize_nutrients_skip _ _ _ _ _ Hnone).
  split; [reflexivity|]. split; [|split].
  - intros Hothers.
    destruct (normalize_nutrients (raw1 ++ raw2) serving_size_g !! output_key key)
      as [info|] eqn:E; [|reflexivity].
    apply normalize_nutrients_lookup in E as (key' & s' & Hin & He).
    apply normalize_entry_Some in He as (v & Hv & Hk & _).
    unfold parsed_value in Hv.
    rewrite (Hothers key' s' Hin (eq_sym Hk)) in Hv. discriminate.
  - intros key' s' Hin Hs. now apply normalize_nutrients_present with s'.
  - intros key' s' Hs Hu.
    destruct (parsed_value s') as [v|] eqn:E.
    + unfold normalize_nutrients, normalize_step. simpl.
      rewrite (normalize_entry_spec _ _ _ _ E), lookup_insert_eq.
      eexists. split; [reflexivity|]. simpl.
      unfold parsed_unit. rewrite Hu. unfold harmonized.
      destruct (decide _) as [(H & _)|_]; [discriminate | reflexivity].
    + unfold parsed_value in E. destruct (re_search_number s');
        [discriminate | contradiction].
Qed.

(** C8, amended, at a concrete input. *)
Lemma normalize_nutrients_skips_unparsable_witness :
  normalize_nutrients ([("sodium", "300mg")] ++ ("protein", "n/a") :: [("fat", "3")]) 50
    = normalize_nutrients ([("sodium", "300mg")] ++ [("fat", "3")]) 50 /\
  normalize_nutrients ([("sodium", "300mg")] ++ ("protein", "n/a") :: [("fat", "3")]) 50
    !! output_key "protein" = None /\
  exists info,
    normalize_nutrients [("fat", "3")] 50 !! output_key "fat" = Some info /\
    unit info = "g".
Proof.
  destruct (normalize_nutrients_skips_unparsable
              [("sodium", "300mg")] [("fat", "3")] "protein" "n/a" 50 eq_refl)
    as (H1 & H2 & _ & H4).
  split; [exact H1|]. split.
  - apply H2. intros key' s' [[= <- <-]|[[= <- <-]|[]]]; vm_compute; discriminate.
  - apply H4; vm_compute; [discriminate | reflexivity].
Defined.

End NutrientProperties.

(** * Further properties of the scorer *)

Section RuleOutcomes.

Local Open Scope Q_scope.

Lemma min__cases (a b : Q) :
  (a <= b /\ min_ a b = a) \/ (b < a /\ min_ a b = b).
Proof.
  unfold min_. destruct (Qle_bool a b) eqn:E.
  - left. split; [now apply Qle_bool_iff | reflexivity].
  - right. split; [|reflexivity]. apply Qnot_le_lt.
    rewrite <- Qle_bool_iff. congruence.
Qed.

Lemma ge__spec (a b : Q) : ge_ a b = true -> b <= a.
Proof. unfold ge_. apply Qle_bool_iff. Qed.

Lemma gt__spec (a b : Q) : gt_ a b = true -> b < a.
Proof.
  unfold gt_. intros H. apply negb_true_iff in H. apply Qnot_le_lt.
  rewrite <- Qle_bool_iff. congruence.
Qed.

Lemma gt__false (a b : Q) : gt_ a b = false -> a <= b.
Proof.
  unfold gt_. intros H. apply negb_false_iff in H. now apply Qle_bool_iff.
Qed.

Lemma len_above (l : list string) (k : Z) :
  inject_Z k < len l -> inject_Z (k + 1) <= len l.
Proof. unfold len. rewrite <- Zlt_Qlt, <- Zle_Qle. lia. Qed.

Lemma fiber_rule_outcome nutrients st :
  outcome fiber_range st (fiber_rule nutrients st).
Proof.
  unfold fiber_rule. destruct (nutrients !! "dietary_fiber") as [i|]; [|now left].
  destruct (ge_ (per_100g i) 6) eqn:E; [|now left].
  apply ge__spec in E. right. eexists (mkScoreDriver _ _ _ _). split; [|simpl; rewrite app_nil_r; repeat split; reflexivity].
  unfold in_range. simpl. repeat split;
    destruct (min__cases 10 (per_100g i * (3 # 2))) as [[? ->]|[? ->]]; lra.
Qed.

Lemma protein_rule_outcome nutrients st :
  outcome protein_range st (protein_rule nutrients st).
Proof.
  unfold protein_rule. destruct (nutrients !! "protein") as [i|]; [|now left].
  destruct (ge_ (per_100g i) 12) eqn:E; [|now left].
  apply ge__spec in E. right. eexists (mkScoreDriver _ _ _ _). split; [|simpl; rewrite app_nil_r; repeat split; reflexivity].
  unfold in_range. simpl. repeat split;
    destruct (min__cases 8 (per_100g i * (3 # 10))) as [[? ->]|[? ->]]; lra.
Qed.

Lemma sodium_rule_outcome nutrients st :
  outcome sodium_range st (sodium_rule nutrients st).
Proof.
  unfold sodium_rule. destruct (nutrients !! "sodium") as [i|]; [|now left].
  destruct (gt_ (per_100g i * 10) 600) eqn:E; [|now left].
  apply gt__spec in E. right. eexists (mkScoreDriver _ _ _ _). split; [|simpl; repeat split; reflexivity].
  unfold in_range. simpl. repeat split;
    destruct (min__cases 15 ((per_100g i * 10 - 600) * (1 # 100)))
      as [[? ->]|[? ->]]; lra.
Qed.

Lemma saturated_fat_rule_outcome nutrients st :
  outcome saturated_fat_range st (saturated_fat_rule nutrients st).
Proof.
  unfold saturated_fat_rule.
  destruct (nutrients !! "saturated_fat") as [i|]; [|now left].
  destruct (gt_ (per_100g i) 5) eqn:E; [|now left].
  apply gt__spec in E. right. eexists (mkScoreDriver _ _ _ _). split; [|simpl; rewrite app_nil_r; repeat split; reflexivity].
  unfold in_range. simpl. repeat split;
    destruct (min__cases 12 (per_100g i * (3 # 2))) as [[? ->]|[? ->]]; lra.
Qed.

Lemma total_sugars_rule_outcome nutrients st :
  outcome total_sugars_range st (total_sugars_rule nutrients st).
Proof.
  unfold total_sugars_rule.
  destruct (nutrients !! "total_sugars") as [i|]; [|now left].
  destruct (gt_ (per_100g i) 15) eqn:E; [|now left].
  apply gt__spec in E. right. eexists (mkScoreDriver _ _ _ _). split; [|simpl; rewrite app_nil_r; repeat split; reflexivity].
  unfold in_range. simpl. repeat split;
    destruct (min__cases 10 (per_100g i * (1 # 2))) as [[? ->]|[? ->]]; lra.
Qed.

Lemma harmful_rule_outcome c st : outcome harmful_range st (harmful_rule c st).
Proof.
  unfold harmful_rule. destruct (gt_ (len (harmful_additives c)) 0) eqn:E;
    [|now left].
  apply gt__spec in E. apply (len_above _ 0) in E. change (inject_Z (0 + 1)) with 1 in E.
  right. eexists (mkScoreDriver _ _ _ _). split; [|simpl; repeat split; reflexivity].
  unfold in_range. simpl. repeat split;
    destruct (min__cases 15 (len (harmful_additives c) * 5))
      as [[? ->]|[? ->]]; lra.
Qed.

Lemma processed_rule_outcome c st :
  outcome processed_range st (processed_rule c st).
Proof.
  unfold processed_rule.
  destruct (gt_ (len (ultra_processed_markers c)) 3) eqn:E; [|now left].
  apply gt__spec in E. apply (len_above _ 3) in E. change (inject_Z (3 + 1)) with 4 in E.
  right. eexists (mkScoreDriver _ _ _ _). split; [|simpl; rewrite app_nil_r; repeat split; reflexivity].
  unfold in_range. simpl. repeat split;
    destruct (min__cases 8 (len (ultra_processed_markers c) * 2))
      as [[? ->]|[? ->]]; lra.
Qed.

Lemma beneficial_rule_outcome c st :
  outcome beneficial_range st (beneficial_rule c st).
Proof.
  unfold beneficial_rule.
  destruct (gt_ (len (beneficial_ingredients c)) 0) eqn:E; [|now left].
  apply gt__spec in E. apply (len_above _ 0) in E. change (inject_Z (0 + 1)) with 1 in E.
  right. eexists (mkScoreDriver _ _ _ _). split; [|simpl; rewrite app_nil_r; repeat split; reflexivity].
  unfold in_range. simpl. repeat split;
    destruct (min__cases 10 (len (beneficial_ingredients c) * 3))
      as [[? ->]|[? ->]]; lra.
Qed.

End RuleOutcomes.

Section ScoreShape.

Local Open Scope Q_scope.

Lemma fired_drivers_app (a b : list (option ScoreDriver)) :
  fired_drivers (a ++ b) = fired_drivers a ++ fired_drivers b.
Proof.
  induction a as [|[d|] a IH]; simpl; [reflexivity | now rewrite IH | exact IH].
Qed.

Lemma fired_warnings_app rows rows' fired fired' :
  Forall2 fits rows fired ->
  fired_warnings (rows ++ rows') (fired ++ fired')
  = fired_warnings rows fired ++ fired_warnings rows' fired'.
Proof.
  induction 1 as [|r o rows fired _ _ IH]; simpl; [reflexivity|].
  destruct o; rewrite IH; [now rewrite app_assoc | reflexivity].
Qed.

Lemma realizes_app rows rows' fired fired' ds ds' ws ws' :
  realizes rows fired ds ws -> realizes rows' fired' ds' ws' ->
  realizes (rows ++ rows') (fired ++ fired') (ds ++ ds') (ws ++ ws').
Proof.
  intros (F1 & -> & ->) (F2 & -> & ->). repeat split.
  - now apply Forall2_app.
  - now rewrite fired_drivers_app.
  - now rewrite fired_warnings_app.
Qed.

Lemma realizes_step rows fired r st st' :
  realizes rows fired (acc_drivers st) (acc_warnings st) ->
  outcome r st st' ->
  exists o, realizes (rows ++ [r]) (fired ++ [o])
                     (acc_drivers st') (acc_warnings st').
Proof.
  intros H [->|(d & Hd & _ & -> & ->)].
  - exists None. rewrite <- (app_nil_r (acc_drivers st)),
      <- (app_nil_r (acc_warnings st)).
    apply realizes_app; [assumption|].
    split; [constructor; [exact I | constructor] | split; reflexivity].
  - exists (Some d). apply realizes_app; [assumption|].
    split; [constructor; [exact Hd | constructor]|].
    split; [reflexivity | simpl; now rewrite app_nil_r].
Qed.

Lemma score_nutrients_realizes nutrients :
  exists fired,
    realizes nutrient_ranges fired
      (acc_drivers (_score_nutrients nutrients))
      (acc_warnings (_score_nutrients nutrients)).
Proof.
  unfold _score_nutrients.
  assert (realizes [] [] (acc_drivers (mkAcc 0 [] []))
            (acc_warnings (mkAcc 0 [] []))) as H0
    by (split; [constructor | split; reflexivity]).
  destruct (realizes_step _ _ _ _ _ H0 (fiber_rule_outcome nutrients _))
    as [o1 H1].
  destruct (realizes_step _ _ _ _ _ H1 (protein_rule_outcome nutrients _))
    as [o2 H2].
  destruct (realizes_step _ _ _ _ _ H2 (sodium_rule_outcome nutrients _))
    as [o3 H3].
  destruct (realizes_step _ _ _ _ _ H3 (saturated_fat_rule_outcome nutrients _))
    as [o4 H4].
  destruct (realizes_step _ _ _ _ _ H4 (total_sugars_rule_outcome nutrients _))
    as [o5 H5].
  eexists. exact H5.
Qed.

Lemma score_ingredients_realizes ingredients :
  exists fired,
    realizes ingredient_ranges fired
      (acc_drivers (_score_ingredients ingredients))
      (acc_warnings (_score_ingredients ingredients)).
Proof.
  unfold _score_ingredients.
  assert (realizes [] [] (acc_drivers (mkAcc 0 [] []))
            (acc_warnings (mkAcc 0 [] []))) as H0
    by (split; [constructor | split; reflexivity]).
  set (c := classify_ingredients ingredients).
  destruct (realizes_step _ _ _ _ _ H0 (harmful_rule_outcome c _)) as [o1 H1].
  destruct (realizes_step _ _ _ _ _ H1 (processed_rule_outcome c _)) as [o2 H2].
  destruct (realizes_step _ _ _ _ _ H2 (beneficial_rule_outcome c _)) as [o3 H3].
  eexists. exact H3.
Qed.

(** The two tests of [score_product] only skip passes that record nothing. *)
Lemma accumulate_lists product :
  acc_drivers (fst (accumulate product))
    = acc_drivers (_score_nutrients (nutrients product))
      ++ acc_drivers (_score_ingredients (ingredients product)) /\
  acc_warnings (fst (accumulate product))
    = acc_warnings (_score_nutrients (nutrients product))
      ++ acc_warnings (_score_ingredients (ingredients product)).
Proof.
  unfold accumulate.
  destruct (bool_decide_reflect (nutrients product = ∅)) as [->|_];
    destruct (ingredients product) as [|i l]; cbn [fst acc_drivers acc_warnings];
    rewrite ?app_nil_r; split; reflexivity.
Qed.

Lemma score_product_realizes product :
  exists fired,
    realizes driver_ranges fired
      (drivers (score_product product)) (warnings (score_product product)).
Proof.
  destruct (score_nutrients_realizes (nutrients product)) as [f1 H1].
  destruct (score_ingredients_realizes (ingredients product)) as [f2 H2].
  exists (f1 ++ f2).
  assert (drivers (score_product product) = acc_drivers (fst (accumulate product))
          /\ warnings (score_product product)
             = acc_warnings (fst (accumulate product))) as [-> ->].
  { unfold score_product. destruct (accumulate product). simpl. auto. }
  destruct (accumulate_lists product) as [-> ->].
  now apply realizes_app.
Qed.

Lemma fired_conform rows fired :
  Forall2 fits rows fired ->
  Forall (fun d => exists r, In r rows /\ in_range r d) (fired_drivers fired).
Proof.
  induction 1 as [|r o rows fired Hfit _ IH]; simpl; [constructor|].
  assert (Forall (fun d => exists r0, In r0 (r :: rows) /\ in_range r0 d)
            (fired_drivers fired)) as IH'.
  { eapply Forall_impl; [exact IH|]. intros d (r0 & Hin & Hr). exists r0.
    split; [now right | assumption]. }
  destruct o as [d|]; [|exact IH'].
  constructor; [|exact IH']. exists r. split; [now left | exact Hfit].
Qed.

Lemma fired_factors rows fired :
  Forall2 fits rows fired ->
  map factor (fired_drivers fired) `sublist_of` map range_factor rows.
Proof.
  induction 1 as [|r o rows fired Hfit _ IH]; simpl; [constructor|].
  destruct o as [d|]; simpl.
  - destruct Hfit as [-> _]. now apply sublist_skip.
  - now apply sublist_cons.
Qed.

Lemma fired_warnings_sublist rows fired :
  fired_warnings rows fired `sublist_of` concat (map range_warning rows).
Proof.
  revert fired. induction rows as [|r rows IH]; intros fired; simpl.
  - destruct fired; constructor.
  - destruct fired as [|[d|] fired].
    + apply sublist_nil_l.
    + apply sublist_app; [reflexivity | apply IH].
    + apply sublist_inserts_l, IH.
Qed.

Lemma fired_sum_bounds rows fired :
  Forall (fun r => 0 <= range_hi r) rows ->
  Forall2 fits rows fired ->
  - max_loss rows <= sum_deltas (fired_drivers fired) <= max_gain rows.
Proof.
  intros Hhi H. induction H as [|r o rows fired Hfit _ IH]; simpl; [lra|].
  inversion Hhi as [|? ? Hr Hrest]; subst. specialize (IH Hrest).
  destruct o as [d|]; simpl.
  - destruct Hfit as (_ & _ & Hpos & Hlo & Hup).
    destruct (range_positive r); lra.
  - destruct (range_positive r); lra.
Qed.

Lemma int_le (x : Q) (z : Z) : x <= inject_Z z -> (int x <= z)%Z.
Proof.
  intros H. unfold int. destruct (Qle_bool 0 x).
  - rewrite <- (Qfloor_Z z). now apply Qfloor_resp_le.
  - rewrite <- (Qceiling_Z z). now apply Qceiling_resp_le.
Qed.

(** X1: the accumulated score of every product lies between -10 and 78,
    so [overall_score] never exceeds 78 and the band is never A; both
    ends are reached, the lower one as the clamped score 0. *)
Theorem score_product_never_band_A (product : ProductData) :
  - (10) <= 50 + sum_deltas (drivers (score_product product)) <= 78 /\
  (0 <= overall_score (score_product product) <= 78)%Z /\
  band (score_product product) <> "A" /\
  (exists best, overall_score (score_product best) = 78%Z) /\
  (exists worst,
     overall_score (score_product worst) = 0%Z /\
     50 + sum_deltas (drivers (score_product worst)) == - (10)).
Proof.
  destruct (score_product_realizes product) as (fired & Hfit & Hd & _).
  assert (- (10) <= 50 + sum_deltas (drivers (score_product product)) <= 78)
    as Hb.
  { rewrite Hd.
    assert (Forall (fun r => 0 <= range_hi r) driver_ranges) as Hhi
      by (repeat constructor; discriminate).
    pose proof (fired_sum_bounds _ _ Hhi Hfit) as H.
    change (max_loss driver_ranges) with (15 + (12 + (10 + (15 + (8 + (0 + 0)))))) in H.
    change (max_gain driver_ranges) with (10 + (8 + (0 + (0 + (0 + (0 + (0 + (10 + 0)))))))) in H.
    lra. }
  destruct (score_product_fields product) as (Hs & Hband & Hdr).
  assert ((overall_score (score_product product) <= 78)%Z) as H78.
  { rewrite Hs.
    assert (int (acc_score (fst (accumulate product))) <= 78)%Z; [|lia].
    apply int_le. pose proof (tallied_accumulate product) as Ht.
    unfold tallied in Ht. rewrite Ht, <- Hdr. apply Hb. }
  split; [exact Hb|]. split; [split; [rewrite Hs; lia | exact H78]|].
  split.
  - rewrite Hband. unfold band_of.
    destruct (Z.leb_spec 80 (overall_score (score_product product))); [lia|].
    repeat match goal with |- context [if ?b then _ else _] => destruct b end;
      discriminate.
  - split.
    + exists (mkProductData None "" ""
                ["whole grain oats"; "quinoa"; "brown rice"; "oat fiber"]
                (<["dietary_fiber" := mkNutrientInfo "dietary_fiber" 8 "g" 8]>
                   (<["protein" := mkNutrientInfo "protein" 32 "g" 32]> ∅))
                None []).
      vm_compute. reflexivity.
    + exists (mkProductData None "" ""
                ["bht"; "bha"; "tbhq"; "emulsifier"; "stabilizer"; "thickener";
                 "modified starch"]
                (<["sodium" := mkNutrientInfo "sodium" 512 "mg" 512]>
                   (<["saturated_fat" := mkNutrientInfo "saturated_fat" 8 "g" 8]>
                      (<["total_sugars" := mkNutrientInfo "total_sugars" 32 "g" 32]> ∅)))
                None []).
      split; vm_compute; reflexivity.
Qed.


(** X3: the labels of the drivers of a score appear in the order in
    which the rules are evaluated, nutrient rules before ingredient
    rules, each at most once; a score has at most eight drivers. *)
Theorem score_product_drivers_ordered (product : ProductData) :
  map factor (drivers (score_product product))
    `sublist_of` map range_factor driver_ranges /\
  NoDup (map factor (drivers (score_product product))) /\
  (List.length (drivers (score_product product)) <= 8)%nat.
Proof.
  destruct (score_product_realizes product) as (fired & Hfit & -> & _).
  pose proof (fired_factors _ _ Hfit) as H. split; [exact H|]. split.
  - eapply sublist_NoDup; [|exact H]. vm_compute.
    repeat (constructor; [rewrite ?list_elem_of_In; simpl; intuition discriminate|]).
    constructor.
  - apply sublist_length in H. rewrite !length_map in H. exact H.
Qed.

Lemma outcome_link (w F : string) r st st' :
  outcome r st st' ->
  (range_warning r = [w] /\ range_factor r = F) \/
  (range_warning r = [] /\ range_factor r <> F) \/
  (~ In w (range_warning r) /\ range_factor r <> F) ->
  (In w (acc_warnings st) <-> In F (map factor (acc_drivers st))) ->
  (In w (acc_warnings st') <-> In F (map factor (acc_drivers st'))).
Proof.
  intros [->|(d & (Hf & _) & _ & -> & ->)] Hside J; [exact J|].
  rewrite List.map_app, !in_app_iff, J. simpl. rewrite Hf.
  destruct Hside as [[-> ->]|[[-> Hne]|[Hnw Hne]]]; simpl; intuition.
Qed.

Lemma score_nutrients_link (w F : string) nutrients :
  (w = sodium_warning /\ F = "High Sodium Content") \/
  (w = additives_warning /\ F = "Harmful Additives Present") ->
  In w (acc_warnings (_score_nutrients nutrients))
  <-> In F (map factor (acc_drivers (_score_nutrients nutrients))).
Proof.
  intros Hwf. unfold _score_nutrients.
  apply (outcome_link w F _ _ _ (total_sugars_rule_outcome nutrients _));
    [right; left; split; [reflexivity | destruct Hwf as [[_ ->]|[_ ->]]; discriminate]|].
  apply (outcome_link w F _ _ _ (saturated_fat_rule_outcome nutrients _));
    [right; left; split; [reflexivity | destruct Hwf as [[_ ->]|[_ ->]]; discriminate]|].
  apply (outcome_link w F _ _ _ (sodium_rule_outcome nutrients _)).
  { destruct Hwf as [[-> ->]|[-> ->]]; [left; split; reflexivity|].
    right; right. split; [simpl; intros [H|[]]; discriminate | discriminate]. }
  apply (outcome_link w F _ _ _ (protein_rule_outcome nutrients _));
    [right; left; split; [reflexivity | destruct Hwf as [[_ ->]|[_ ->]]; discriminate]|].
  apply (outcome_link w F _ _ _ (fiber_rule_outcome nutrients _));
    [right; left; split; [reflexivity | destruct Hwf as [[_ ->]|[_ ->]]; discriminate]|].
  simpl. tauto.
Qed.

Lemma score_ingredients_link (w F : string) ingredients :
  (w = sodium_warning /\ F = "High Sodium Content") \/
  (w = additives_warning /\ F = "Harmful Additives Present") ->
  In w (acc_warnings (_score_ingredients ingredients))
  <-> In F (map factor (acc_drivers (_score_ingredients ingredients))).
Proof.
  intros Hwf. unfold _score_ingredients.
  set (c := classify_ingredients ingredients).
  apply (outcome_link w F _ _ _ (beneficial_rule_outcome c _));
    [right; left; split; [reflexivity | destruct Hwf as [[_ ->]|[_ ->]]; discriminate]|].
  apply (outcome_link w F _ _ _ (processed_rule_outcome c _));
    [right; left; split; [reflexivity | destruct Hwf as [[_ ->]|[_ ->]]; discriminate]|].
  apply (outcome_link w F _ _ _ (harmful_rule_outcome c _)).
  { destruct Hwf as [[-> ->]|[-> ->]]; [|left; split; reflexivity].
    right; right. split; [simpl; intros [H|[]]; discriminate | discriminate]. }
  simpl. tauto.
Qed.

(** X4: the warnings of a score are, in this order and each at most
    once, the sodium warning and the additives warning; the sodium
    warning is present exactly when the driver "High Sodium Content" is,
    and the additives warning exactly when the driver "Harmful Additives
    Present" is. *)
Theorem score_product_warnings_follow_drivers (product : ProductData) :
  warnings (score_product product)
    `sublist_of` [sodium_warning; additives_warning] /\
  (In sodium_warning (warnings (score_product product))
   <-> In "High Sodium Content" (map factor (drivers (score_product product)))) /\
  (In additives_warning (warnings (score_product product))
   <-> In "Harmful Additives Present"
          (map factor (drivers (score_product product)))).
Proof.
  split.
  - destruct (score_product_realizes product) as (fired & _ & _ & ->).
    apply (fired_warnings_sublist driver_ranges).
  - assert (drivers (score_product product) = acc_drivers (fst (accumulate product))
            /\ warnings (score_product product)
               = acc_warnings (fst (accumulate product))) as [-> ->].
    { unfold score_product. destruct (accumulate product). simpl. auto. }
    destruct (accumulate_lists product) as [-> ->].
    rewrite !List.map_app. rewrite !in_app_iff.
    rewrite (score_nutrients_link sodium_warning "High Sodium Content") by auto.
    rewrite (score_ingredients_link sodium_warning "High Sodium Content") by auto.
    rewrite (score_nutrients_link additives_warning "Harmful Additives Present")
      by auto.
    rewrite (score_ingredients_link additives_warning "Harmful Additives Present")
      by auto.
    tauto.
Qed.

End ScoreShape.

Section ScoreComposition.

Local Open Scope Q_scope.

Lemma score_product_confidence product :
  confidence (score_product product)
  = _calculate_confidence (snd (accumulate product)) product.
Proof. unfold score_product. now destruct (accumulate product). Qed.

Lemma accumulate_factors product :
  snd (accumulate product)
  = (if bool_decide (nutrients product = ∅) then [] else ["nutrients"])
    ++ (match ingredients product with [] => [] | _ => ["ingredients"] end).
Proof.
  unfold accumulate. destruct (bool_decide _);
    destruct (ingredients product); reflexivity.
Qed.

(** X5: the confidence is high exactly when the product has both
    nutrients and ingredients, medium exactly when it has nutrients, no
    ingredients and a barcode or a brand, and low otherwise; without
    nutrients it is always low, whatever else is known. *)
Theorem score_product_confidence_levels (product : ProductData) :
  let c := confidence (score_product product) in
  (c = "high" <-> nutrients product <> ∅ /\ ingredients product <> []) /\
  (c = "medium" <->
     nutrients product <> ∅ /\ ingredients product = [] /\
     (truthy_opt (barcode product) = true \/ brand product <> "")) /\
  (c = "low" <->
     nutrients product = ∅ \/
     (ingredients product = [] /\ truthy_opt (barcode product) = false /\
      brand product = "")).
Proof.
  cbv zeta. rewrite score_product_confidence, accumulate_factors.
  unfold _calculate_confidence.
  destruct (bool_decide_reflect (nutrients product = ∅)) as [Hn|Hn];
    destruct (ingredients product) as [|i l];
    destruct (truthy_opt (barcode product));
    destruct (brand product) as [|ch b]; simpl;
    repeat split; intros; try discriminate; try tauto;
    repeat match goal with
           | H : _ /\ _ |- _ => destruct H
           | H : _ \/ _ |- _ => destruct H
           end;
    try discriminate; try contradiction; try congruence; auto.
  all: try (right; repeat split; congruence).
Qed.

(** X6: a product without nutrients and without ingredients gets the
    neutral score 50 in band C, with no driver, no warning and low
    confidence, whatever its barcode, name and brand. *)
Theorem score_product_without_data (product : ProductData) :
  nutrients product = ∅ -> ingredients product = [] ->
  score_product product = mkHealthScore 50 "C" [] sources "low" [].
Proof.
  intros Hn Hi. unfold score_product, accumulate. rewrite Hn, Hi.
  rewrite bool_decide_eq_true_2 by reflexivity. cbn -[sources].
  unfold _calculate_confidence. simpl.
  destruct (truthy_opt (barcode product)); destruct (is_empty (brand product));
    reflexivity.
Qed.

(** X6 at a concrete input: a product known only by barcode and brand. *)
Lemma score_product_without_data_witness :
  score_product (mkProductData (Some "0123456789012") "Plain" "Acme" [] ∅ None [])
  = mkHealthScore 50 "C" [] sources "low" [].
Proof. apply score_product_without_data; reflexivity. Defined.

Lemma min__cap (cap x : Q) : cap <= x -> min_ cap x = cap.
Proof.
  intros H. destruct (min__cases cap x) as [[_ E]|[H' _]]; [exact E | lra].
Qed.

Ltac compute_rule :=
  match goal with
  | |- context [gt_ ?a ?b] =>
      let v := eval vm_compute in (gt_ a b) in change (gt_ a b) with v
  end;
  try match goal with
      | |- context [min_ ?a ?b] =>
          let v := eval vm_compute in (min_ a b) in change (min_ a b) with v
      end;
  simpl; ring.

Lemma harmful_rule_step c st :
  acc_score (harmful_rule c st)
  == acc_score st + harmful_step (List.length (harmful_additives c)).
Proof.
  unfold harmful_rule, len.
  destruct (List.length (harmful_additives c)) as [|[|[|n]]];
    try compute_rule.
  assert (3 < inject_Z (Z.of_nat (S (S (S n)))) * 5) as H.
  { assert (3 <= inject_Z (Z.of_nat (S (S (S n))))) as H3
      by (change 3 with (inject_Z 3); rewrite <- Zle_Qle; lia).
    lra. }
  assert (gt_ (inject_Z (Z.of_nat (S (S (S n))))) 0 = true) as ->.
  { unfold gt_. apply negb_true_iff. destruct (Qle_bool _ 0) eqn:E; [|reflexivity].
    apply Qle_bool_iff in E. lra. }
  rewrite min__cap.
  - simpl. ring.
  - assert (3 <= inject_Z (Z.of_nat (S (S (S n))))) as H3
      by (change 3 with (inject_Z 3); rewrite <- Zle_Qle; lia).
    lra.
Qed.

Lemma processed_rule_step c st :
  acc_score (processed_rule c st)
  == acc_score st + processed_step (List.length (ultra_processed_markers c)).
Proof.
  unfold processed_rule, processed_step, len.
  destruct (List.length (ultra_processed_markers c)) as [|[|[|[|n]]]];
    try compute_rule.
  assert (4 <= inject_Z (Z.of_nat (S (S (S (S n)))))) as H4
    by (change 4 with (inject_Z 4); rewrite <- Zle_Qle; lia).
  assert (gt_ (inject_Z (Z.of_nat (S (S (S (S n)))))) 3 = true) as ->.
  { unfold gt_. apply negb_true_iff. destruct (Qle_bool _ 3) eqn:E; [|reflexivity].
    apply Qle_bool_iff in E. lra. }
  rewrite min__cap by lra. simpl. ring.
Qed.

Lemma beneficial_rule_step c st :
  acc_score (beneficial_rule c st)
  == acc_score st + beneficial_step (List.length (beneficial_ingredients c)).
Proof.
  unfold beneficial_rule, len.
  destruct (List.length (beneficial_ingredients c)) as [|[|[|[|n]]]];
    try compute_rule.
  assert (4 <= inject_Z (Z.of_nat (S (S (S (S n)))))) as H4
    by (change 4 with (inject_Z 4); rewrite <- Zle_Qle; lia).
  assert (gt_ (inject_Z (Z.of_nat (S (S (S (S n)))))) 0 = true) as ->.
  { unfold gt_. apply negb_true_iff. destruct (Qle_bool _ 0) eqn:E; [|reflexivity].
    apply Qle_bool_iff in E. lra. }
  rewrite min__cap by lra. simpl. ring.
Qed.

Lemma score_ingredients_steps (ingredients : list string) :
  acc_score (_score_ingredients ingredients)
  == harmful_step
       (List.length (harmful_additives (classify_ingredients ingredients)))
     + processed_step
         (List.length (ultra_processed_markers (classify_ingredients ingredients)))
     + beneficial_step
         (List.length (beneficial_ingredients (classify_ingredients ingredients))).
Proof.
  unfold _score_ingredients.
  rewrite beneficial_rule_step, processed_rule_step, harmful_rule_step.
  simpl. ring.
Qed.

(** C10: whenever more than three ingredients are classified as
    ultra-processing markers, [min(8, 2 * count)] is 8 and the rule, on
    any accumulators, adds exactly -8 to the score and records one driver
    whose delta is -8, whatever the count; so the score of the ingredient
    pass is the harmful and beneficial contributions and the constant -8,
    and every driver labelled "Highly Processed Food" has the delta -8. *)
Theorem processed_penalty_is_constant (ingredients : list string) :
  let c := classify_ingredients ingredients in
  (3 < List.length (ultra_processed_markers c))%nat ->
  min_ 8 (len (ultra_processed_markers c) * 2) = 8 /\
  (forall st,
     processed_rule c st = fire st processed_driver /\
     acc_score (processed_rule c st) = acc_score st + - (8) /\
     acc_drivers (processed_rule c st) = acc_drivers st ++ [processed_driver] /\
     acc_warnings (processed_rule c st) = acc_warnings st) /\
  acc_score (_score_ingredients ingredients)
    == harmful_step (List.length (harmful_additives c))
       + - (8)
       + beneficial_step (List.length (beneficial_ingredients c)) /\
  In processed_driver (acc_drivers (_score_ingredients ingredients)) /\
  forall d, In d (acc_drivers (_score_ingredients ingredients)) ->
            factor d = "Highly Processed Food" -> score_delta d = -8.
Proof.
  cbv zeta. intros H. split; [now apply min_8_doubled|].
  split.
  { intros st. rewrite (processed_rule_fires _ st H). repeat split. }
  split.
  { rewrite score_ingredients_steps. unfold processed_step.
    destruct (Nat.leb_spec
                (List.length
                   (ultra_processed_markers (classify_ingredients ingredients)))
                3) as [Hle|_]; [lia | reflexivity]. }
  unfold _score_ingredients.
  set (c := classify_ingredients ingredients) in *.
  rewrite (processed_rule_fires c _ H).
  split.
  - unfold beneficial_rule. destruct (gt_ _ _); unfold fire; simpl;
      rewrite ?in_app_iff; simpl; tauto.
  - intros d Hin Hf.
    assert (In d (acc_drivers (fire (harmful_rule c (mkAcc 0 [] [])) processed_driver))
            \/ factor d = "Beneficial Ingredients") as [Hin'|Hb].
    { unfold beneficial_rule in Hin. destruct (gt_ _ _); [|now left].
      apply factor_in_fire in Hin as [Hin | ->]; [now left | now right]. }
    + apply factor_in_fire in Hin' as [Hin' | ->]; [|reflexivity].
      unfold harmful_rule in Hin'. destruct (gt_ _ _); simpl in Hin'.
      * destruct Hin' as [<-|[]]. discriminate.
      * destruct Hin'.
    + rewrite Hb in Hf. discriminate.
Qed.

(** C10 at a concrete input: four markers. *)
Lemma processed_penalty_is_constant_witness :
  (3 < List.length (ultra_processed_markers (classify_ingredients four_markers)))%nat /\
  acc_score (_score_ingredients four_markers) == - (8) /\
  In processed_driver (acc_drivers (_score_ingredients four_markers)).
Proof.
  assert (3 < List.length (ultra_processed_markers (classify_ingredients four_markers)))%nat
    as H by (vm_compute; lia).
  destruct (processed_penalty_is_constant four_markers H) as (_ & _ & Hs & Hin & _).
  split; [exact H|]. split; [|exact Hin].
  rewrite Hs. vm_compute. reflexivity.
Defined.

(** X7: the score of the ingredient pass is a step function of the three
    category counts: 0, -5, -10 and then -15 for the harmful additives;
    0 up to three ultra-processing markers and -8 from four on; 0, 3, 6,
    9 and then 10 for the beneficial ingredients.  Ingredients classified
    as other do not count. *)
Theorem score_ingredients_is_stepwise (ingredients : list string) :
  let c := classify_ingredients ingredients in
  acc_score (_score_ingredients ingredients)
  == harmful_step (List.length (harmful_additives c))
     + processed_step (List.length (ultra_processed_markers c))
     + beneficial_step (List.length (beneficial_ingredients c)).
Proof. apply score_ingredients_steps. Qed.

Lemma filter_split {A} (p q : A -> bool) (l : list A) :
  Forall (fun x => (p x = true /\ q x = false) \/ (p x = false /\ q x = true)) l ->
  Permutation (List.filter p l ++ List.filter q l) l.
Proof.
  induction 1 as [|x l [[Hp Hq]|[Hp Hq]] _ IH]; simpl; [constructor| |];
    rewrite Hp, Hq.
  - simpl. now constructor.
  - symmetry. apply Permutation_cons_app. now symmetry.
Qed.

(** X8: what [display_analysis] reads from a score is always there: the
    band has a colour, and the lists of positive and of negative factors
    together show every driver exactly once. *)
Theorem display_covers_every_score (product : ProductData) :
  is_Some (score_color !! band (score_product product)) /\
  Permutation
    (positive_drivers (score_product product)
     ++ negative_drivers (score_product product))
    (drivers (score_product product)).
Proof.
  split.
  - destruct (score_product_fields product) as (_ & -> & _). unfold band_of.
    repeat match goal with |- context [if ?b then _ else _] => destruct b end;
      vm_compute; eauto.
  - unfold positive_drivers, negative_drivers. apply filter_split.
    destruct (score_product_realizes product) as (fired & Hfit & -> & _).
    eapply Forall_impl; [exact (fired_conform _ _ Hfit)|].
    intros d (r & _ & _ & -> & _). destruct (range_positive r); auto.
Qed.

Lemma score_nutrients_ext (m1 m2 : gmap string NutrientInfo) :
  (forall k, In k scored_keys -> per_100g <$> m1 !! k = per_100g <$> m2 !! k) ->
  _score_nutrients m1 = _score_nutrients m2.
Proof.
  intros H. unfold _score_nutrients.
  assert (forall st, fiber_rule m1 st = fiber_rule m2 st) as E1.
  { intros st. unfold fiber_rule.
    pose proof (H "dietary_fiber" ltac:(simpl; tauto)) as E.
    destruct (m1 !! "dietary_fiber"), (m2 !! "dietary_fiber"); simpl in E;
      try discriminate; [|reflexivity]. injection E as E. now rewrite E. }
  assert (forall st, protein_rule m1 st = protein_rule m2 st) as E2.
  { intros st. unfold protein_rule.
    pose proof (H "protein" ltac:(simpl; tauto)) as E.
    destruct (m1 !! "protein"), (m2 !! "protein"); simpl in E;
      try discriminate; [|reflexivity]. injection E as E. now rewrite E. }
  assert (forall st, sodium_rule m1 st = sodium_rule m2 st) as E3.
  { intros st. unfold sodium_rule.
    pose proof (H "sodium" ltac:(simpl; tauto)) as E.
    destruct (m1 !! "sodium"), (m2 !! "sodium"); simpl in E;
      try discriminate; [|reflexivity]. injection E as E. now rewrite E. }
  assert (forall st, saturated_fat_rule m1 st = saturated_fat_rule m2 st) as E4.
  { intros st. unfold saturated_fat_rule.
    pose proof (H "saturated_fat" ltac:(simpl; tauto)) as E.
    destruct (m1 !! "saturated_fat"), (m2 !! "saturated_fat"); simpl in E;
      try discriminate; [|reflexivity]. injection E as E. now rewrite E. }
  assert (forall st, total_sugars_rule m1 st = total_sugars_rule m2 st) as E5.
  { intros st. unfold total_sugars_rule.
    pose proof (H "total_sugars" ltac:(simpl; tauto)) as E.
    destruct (m1 !! "total_sugars"), (m2 !! "total_sugars"); simpl in E;
      try discriminate; [|reflexivity]. injection E as E. now rewrite E. }
  now rewrite E1, E2, E3, E4, E5.
Qed.

Lemma overall_score_from_drivers p1 p2 :
  drivers (score_product p1) = drivers (score_product p2) ->
  overall_score (score_product p1) = overall_score (score_product p2) /\
  band (score_product p1) = band (score_product p2).
Proof.
  intros Hd.
  destruct (score_product_fields p1) as (Hs1 & Hb1 & Hd1).
  destruct (score_product_fields p2) as (Hs2 & Hb2 & Hd2).
  assert (overall_score (score_product p1) = overall_score (score_product p2))
    as Hs.
  { rewrite Hs1, Hs2. do 2 f_equal. apply int_comp.
    pose proof (tallied_accumulate p1) as T1.
    pose proof (tallied_accumulate p2) as T2. unfold tallied in *.
    rewrite T1, T2, <- Hd1, <- Hd2, Hd. reflexivity. }
  split; [exact Hs | now rewrite Hb1, Hb2, Hs].
Qed.

(** X9: the scorer reads nothing of the nutrient map but the per-100g
    values under its five keys: two products with the same ingredients
    whose nutrient maps agree there get the same score, band, drivers and
    warnings, whatever their other nutrients, names, units and
    per-serving values are. *)
Theorem score_product_reads_five_keys (p1 p2 : ProductData) :
  ingredients p1 = ingredients p2 ->
  (forall k, In k scored_keys ->
             per_100g <$> nutrients p1 !! k = per_100g <$> nutrients p2 !! k) ->
  overall_score (score_product p1) = overall_score (score_product p2) /\
  band (score_product p1) = band (score_product p2) /\
  drivers (score_product p1) = drivers (score_product p2) /\
  warnings (score_product p1) = warnings (score_product p2).
Proof.
  intros Hi Hn.
  assert (forall p, drivers (score_product p) = acc_drivers (fst (accumulate p))
          /\ warnings (score_product p) = acc_warnings (fst (accumulate p)))
    as Hf.
  { intros p. unfold score_product. destruct (accumulate p). simpl. auto. }
  assert (drivers (score_product p1) = drivers (score_product p2)
          /\ warnings (score_product p1) = warnings (score_product p2))
    as [Hd Hw].
  { destruct (Hf p1) as [-> ->]. destruct (Hf p2) as [-> ->].
    destruct (accumulate_lists p1) as [-> ->].
    destruct (accumulate_lists p2) as [-> ->].
    now rewrite (score_nutrients_ext _ _ Hn), Hi. }
  destruct (overall_score_from_drivers _ _ Hd) as [Hs Hb]. auto.
Qed.

(** X9 at a concrete input: adding calories and renaming the fibre
    record changes nothing. *)
Lemma score_product_reads_five_keys_witness :
  overall_score
    (score_product
       (mkProductData None "" "" ["oats"]
          (<["dietary_fiber" := mkNutrientInfo "Fibre" 4 "g" 8]>
             (<["calories" := mkNutrientInfo "calories" 150 "kcal" 300]> ∅))
          None []))
  = overall_score
      (score_product
         (mkProductData None "" "" ["oats"]
            (<["dietary_fiber" := mkNutrientInfo "dietary_fiber" 8 "g" 8]> ∅)
            None [])).
Proof.
  apply score_product_reads_five_keys; [reflexivity|].
  intros k [<-|[<-|[<-|[<-|[<-|[]]]]]]; vm_compute; reflexivity.
Defined.

Lemma int_mono (x y : Q) : x <= y -> (int x <= int y)%Z.
Proof.
  intros H. unfold int.
  destruct (Qle_bool 0 x) eqn:Ex; destruct (Qle_bool 0 y) eqn:Ey.
  - now apply Qfloor_resp_le.
  - apply Qle_bool_iff in Ex.
    assert (y < 0) by (apply Qnot_le_lt; rewrite <- Qle_bool_iff; congruence).
    exfalso. lra.
  - apply Qle_bool_iff in Ey.
    assert (x < 0) as Hx
      by (apply Qnot_le_lt; rewrite <- Qle_bool_iff; congruence).
    transitivity 0%Z.
    + rewrite <- (Qceiling_Z 0). apply Qceiling_resp_le.
      apply Qlt_le_weak, Hx.
    + rewrite <- (Qfloor_Z 0). apply Qfloor_resp_le, Ey.
  - now apply Qceiling_resp_le.
Qed.

Lemma accumulate_score product :
  acc_score (fst (accumulate product))
  == 50 + acc_score (_score_nutrients (nutrients product))
     + acc_score (_score_ingredients (ingredients product)).
Proof.
  pose proof (tallied_accumulate product) as T.
  pose proof (tallied_score_nutrients (nutrients product)) as Tn.
  pose proof (tallied_score_ingredients (ingredients product)) as Ti.
  unfold tallied in *. destruct (accumulate_lists product) as [Hd _].
  rewrite T, Tn, Ti, Hd, sum_deltas_app. ring.
Qed.

Lemma classify_counts_snoc (l : list string) (i : string) :
  let c := classify_ingredients l in
  let c' := classify_ingredients (l ++ [i]) in
  List.length (harmful_additives c')
    = (List.length (harmful_additives c)
       + if matches Harmful i then 1 else 0)%nat /\
  List.length (ultra_processed_markers c')
    = (List.length (ultra_processed_markers c)
       + if negb (matches Harmful i) && matches UltraProcessed i
         then 1 else 0)%nat /\
  List.length (beneficial_ingredients c')
    = (List.length (beneficial_ingredients c)
       + if negb (matches Harmful i) && negb (matches UltraProcessed i)
            && matches Beneficial i
         then 1 else 0)%nat.
Proof.
  cbv zeta. unfold classify_ingredients. rewrite !classify_fold. simpl.
  rewrite !List.filter_app, !length_app. simpl.
  repeat split;
    match goal with |- context [if ?b then [i] else []] => destruct b end;
    reflexivity.
Qed.

Lemma harmful_step_down (n : nat) : harmful_step (n + 1) <= harmful_step n.
Proof. destruct n as [|[|[|n]]]; simpl; lra. Qed.

Lemma processed_step_down (n : nat) : processed_step (n + 1) <= processed_step n.
Proof. destruct n as [|[|[|[|n]]]]; unfold processed_step; simpl; lra. Qed.

Lemma beneficial_step_up (n : nat) : beneficial_step n <= beneficial_step (n + 1).
Proof. destruct n as [|[|[|[|n]]]]; simpl; lra. Qed.

(** X10: appending one ingredient to a product moves its score in one
    direction only: an ingredient classified as a harmful additive or as an
    ultra-processing marker never raises the score, one classified as
    beneficial never lowers it, and one classified as other leaves it as
    it is. *)
Theorem appended_ingredient_moves_score_one_way
    (product : ProductData) (i : string) :
  let old := overall_score (score_product product) in
  let new := overall_score
               (score_product
                  (with_ingredients product (ingredients product ++ [i]))) in
  match first_match priority i with
  | Some Harmful | Some UltraProcessed => (new <= old)%Z
  | Some Beneficial => (old <= new)%Z
  | None => new = old
  end.
Proof.
  cbv zeta.
  set (product' := with_ingredients product (ingredients product ++ [i])).
  destruct (score_product_fields product) as (-> & _ & _).
  destruct (score_product_fields product') as (-> & _ & _).
  pose proof (accumulate_score product) as S.
  pose proof (accumulate_score product') as S'.
  rewrite score_ingredients_steps in S, S'.
  change (nutrients product') with (nutrients product) in S'.
  change (ingredients product') with (ingredients product ++ [i]) in S'.
  destruct (classify_counts_snoc (ingredients product) i) as (Hh & Hu & Hb).
  rewrite Hh, Hu, Hb in S'. clear Hh Hu Hb.
  set (c := classify_ingredients (ingredients product)) in *.
  pose proof (harmful_step_down (List.length (harmful_additives c))) as Dh.
  pose proof (processed_step_down (List.length (ultra_processed_markers c))) as Du.
  pose proof (beneficial_step_up (List.length (beneficial_ingredients c))) as Ub.
  unfold priority, first_match.
  destruct (matches Harmful i); simpl in S'.
  - rewrite !Nat.add_0_r in S'.
    assert (acc_score (fst (accumulate product'))
            <= acc_score (fst (accumulate product))) as H by (rewrite S, S'; lra).
    apply int_mono in H. lia.
  - destruct (matches UltraProcessed i); simpl in S'.
    + rewrite !Nat.add_0_r in S'.
      assert (acc_score (fst (accumulate product'))
              <= acc_score (fst (accumulate product))) as H
        by (rewrite S, S'; lra).
      apply int_mono in H. lia.
    + destruct (matches Beneficial i); simpl in S'; rewrite !Nat.add_0_r in S'.
      * assert (acc_score (fst (accumulate product))
                <= acc_score (fst (accumulate product'))) as H
          by (rewrite S, S'; lra).
        apply int_mono in H. lia.
      * do 2 f_equal. apply int_comp. rewrite S, S'. reflexivity.
Qed.

Lemma filter_length_perm {A} (p : A -> bool) (l l' : list A) :
  Permutation l l' ->
  List.length (List.filter p l) = List.length (List.filter p l').
Proof.
  induction 1 as [|x l l' _ IH|x y l|l l' l'' _ IH1 _ IH2]; simpl.
  - reflexivity.
  - destruct (p x); simpl; now rewrite IH.
  - destruct (p x), (p y); reflexivity.
  - now rewrite IH1.
Qed.

(** X16: the score and the band do not depend on the order in which the
    ingredients are listed. *)
Theorem score_ignores_ingredient_order
    (product : ProductData) (l : list string) :
  Permutation (ingredients product) l ->
  overall_score (score_product (with_ingredients product l))
    = overall_score (score_product product) /\
  band (score_product (with_ingredients product l))
    = band (score_product product).
Proof.
  intros Hp. set (product' := with_ingredients product l).
  destruct (score_product_fields product) as (Hs & Hb & _).
  destruct (score_product_fields product') as (Hs' & Hb' & _).
  assert (overall_score (score_product product')
          = overall_score (score_product product)) as E.
  { rewrite Hs, Hs'. do 2 f_equal. apply int_comp.
    rewrite (accumulate_score product), (accumulate_score product').
    rewrite !score_ingredients_steps.
    change (nutrients product') with (nutrients product).
    change (ingredients product') with l.
    unfold classify_ingredients. rewrite !classify_fold. simpl.
    now rewrite !(filter_length_perm _ _ _ Hp). }
  split; [exact E | now rewrite Hb, Hb', E].
Qed.

(** X16 at a concrete input. *)
Lemma score_ignores_ingredient_order_witness :
  overall_score
    (score_product
       (with_ingredients (mkProductData None "" "" ["bht"; "oats"] ∅ None [])
          ["oats"; "bht"]))
  = overall_score
      (score_product (mkProductData None "" "" ["bht"; "oats"] ∅ None [])).
Proof.
  apply score_ignores_ingredient_order. simpl. apply perm_swap.
Defined.

End ScoreComposition.

(** * Further properties of the normalizers *)

Section NormalizerRoundTrip.

Lemma lower_fixed t : all_chars not_upper t = true -> lower t = t.
Proof.
  induction t as [|c t IH]; simpl; [reflexivity|].
  intros H. apply andb_true_iff in H as [Hc Ht].
  unfold lower_char. unfold not_upper in Hc. apply negb_true_iff in Hc.
  now rewrite Hc, IH.
Qed.

Lemma re_split_fixed t : all_chars not_separator t = true -> re_split t = [t].
Proof.
  induction t as [|c t IH]; simpl; [reflexivity|].
  intros H. apply andb_true_iff in H as [Hc Ht].
  unfold not_separator in Hc. apply negb_true_iff in Hc.
  now rewrite Hc, IH.
Qed.

Lemma sub_parens_fixed t : no_paren_pair t = true -> sub_parens false t = t.
Proof.
  induction t as [|c t IH]; simpl; [reflexivity|].
  intros H. apply andb_true_iff in H as [Hc Ht].
  apply negb_true_iff in Hc. now rewrite Hc, IH.
Qed.

Lemma sub_spaces_fixed b t : collapsed b t = true -> sub_spaces b t = t.
Proof.
  revert b. induction t as [|c t IH]; intros b; simpl; [reflexivity|].
  destruct (is_space c).
  - intros H. apply andb_true_iff in H as [H Ht].
    apply andb_true_iff in H as [Hc Hb]. apply negb_true_iff in Hb. subst b.
    apply Ascii.eqb_eq in Hc. subst c. now rewrite IH.
  - intros H. now rewrite IH.
Qed.

Lemma token_fixed t :
  token_ok t = true -> normalize_ingredient_list (Some t) = [t].
Proof.
  unfold token_ok. rewrite !andb_true_iff.
  intros (((((Hlen & Hsep) & Hup) & Hpar) & Hcol) & Hstrip).
  apply String.eqb_eq in Hstrip. apply Nat.leb_le in Hlen.
  rewrite normalize_ingredient_list_filter, (lower_fixed _ Hup),
    (re_split_fixed _ Hsep).
  assert (clean t = t) as Hc.
  { unfold clean.
    now rewrite Hstrip, (sub_parens_fixed _ Hpar), (sub_spaces_fixed _ _ Hcol). }
  assert (keep t = true) as Hk.
  { unfold keep. destruct t as [|c t]; [simpl in Hlen; lia|].
    apply andb_true_iff. split; [reflexivity | apply Nat.ltb_lt; lia]. }
  cbn [map List.filter]. now rewrite Hc, Hk.
Qed.

Lemma normalize_leading_space s :
  normalize_ingredient_list (Some (String " " s))
  = normalize_ingredient_list (Some s).
Proof.
  rewrite !normalize_ingredient_list_filter. cbn [lower re_split].
  change (lower_char " ") with " "%char.
  change (is_separator " ") with false. cbv iota.
  pose proof (re_split_nonempty (lower s)) as Hne.
  destruct (re_split (lower s)) as [|piece pieces]; [contradiction|].
  reflexivity.
Qed.

Lemma normalize_join l :
  Forall (fun t => normalize_ingredient_list (Some t) = [t]) l ->
  normalize_ingredient_list (Some (join ", " l)) = l.
Proof.
  induction 1 as [|t l Ht Hl IH]; [reflexivity|].
  destruct l as [|u l]; [exact Ht|].
  change (join ", " (t :: u :: l))
    with (t +:+ String "," (String " " (join ", " (u :: l)))).
  rewrite (normalize_ingredient_list_app t _ "," eq_refl eq_refl).
  now rewrite normalize_leading_space, Ht, IH.
Qed.

(** X11: normalization is idempotent: every token that
    [normalize_ingredient_list] returns is returned unchanged when it is
    normalized again, and joining the returned tokens with ", ", as the
    display does, and normalizing the text gives the same tokens back. *)
Theorem normalize_ingredient_list_idempotent (raw : string) :
  Forall (fun t => normalize_ingredient_list (Some t) = [t])
         (normalize_ingredient_list (Some raw)) /\
  normalize_ingredient_list
    (Some (join ", " (normalize_ingredient_list (Some raw))))
  = normalize_ingredient_list (Some raw).
Proof.
  assert (Forall (fun t => normalize_ingredient_list (Some t) = [t])
            (normalize_ingredient_list (Some raw))) as H.
  { eapply Forall_impl; [apply normalize_tokens_ok|]. apply token_fixed. }
  split; [exact H | now apply normalize_join].
Qed.

Lemma any_term_contains terms s term :
  In term terms -> contains term s = true -> any_term terms s = true.
Proof.
  intros Hin Hc. rewrite any_term_existsb. apply existsb_exists. eauto.
Qed.

(** X12: an ingredient in which a harmful term occurs anywhere, also
    inside a longer word and whatever else the ingredient contains, is
    listed among the harmful additives. *)
Theorem harmful_term_anywhere_is_flagged
    (ingredients : list string) (i term pre post : string) :
  In i ingredients ->
  In term HARMFUL_ADDITIVES ->
  lower i = pre +:+ term +:+ post ->
  In i (harmful_additives (classify_ingredients ingredients)).
Proof.
  intros Hi Hterm Hsub. unfold classify_ingredients. rewrite classify_fold.
  simpl. apply filter_In. split; [exact Hi|].
  unfold matches. simpl. apply (any_term_contains _ _ term Hterm).
  apply contains_spec. eauto.
Qed.

(** X12 at a concrete input: "bha" inside "bhaji", next to a beneficial
    term. *)
Lemma harmful_term_anywhere_is_flagged_witness :
  In "Oats Bhaji Mix"
     (harmful_additives (classify_ingredients ["salt"; "Oats Bhaji Mix"])).
Proof.
  apply (harmful_term_anywhere_is_flagged _ _ "bha" "oats " "ji mix").
  - simpl. tauto.
  - simpl. tauto.
  - reflexivity.
Defined.

End NormalizerRoundTrip.

Section NutrientMapProperties.

Local Open Scope Q_scope.

Lemma replace_space_no_space s : mem_char " " (replace_char " " "_" s) = false.
Proof.
  induction s as [|c s IH]; simpl; [reflexivity|]. rewrite IH.
  destruct (Ascii.eqb_spec c " ") as [->|Hne]; [reflexivity|].
  now apply orb_false_iff, conj, eq_refl; apply Ascii.eqb_neq.
Qed.

Lemma replace_space_not_upper s :
  all_chars not_upper s = true ->
  all_chars not_upper (replace_char " " "_" s) = true.
Proof.
  induction s as [|c s IH]; simpl; [auto|].
  intros H. apply andb_true_iff in H as [Hc Hs]. rewrite (IH Hs).
  destruct (Ascii.eqb c " "); [reflexivity | now rewrite Hc].
Qed.

(** X13: every key of the map returned by [normalize_nutrients] is the
    lower-cased form, with spaces replaced by underscores, of a key of
    the input; it contains no space and no upper-case letter. *)
Theorem normalize_nutrients_keys
    (raw : list (string * string)) (serving_size_g : Q) (k : string) :
  is_Some (normalize_nutrients raw serving_size_g !! k) ->
  (exists key value_str, In (key, value_str) raw /\ k = output_key key) /\
  mem_char " " k = false /\
  all_chars not_upper k = true.
Proof.
  intros [info H].
  apply normalize_nutrients_lookup in H as (key & s & Hin & He).
  apply normalize_entry_Some in He as (v & _ & -> & _).
  split; [eauto|]. unfold output_key. split.
  - apply replace_space_no_space.
  - apply replace_space_not_upper, not_upper_lower.
Qed.

(** X13 at a concrete input. *)
Lemma normalize_nutrients_keys_witness :
  is_Some (normalize_nutrients [("Total Fat", "3g")] 100 !! "total_fat") /\
  mem_char " " "total_fat" = false /\
  all_chars not_upper "total_fat" = true.
Proof.
  assert (is_Some (normalize_nutrients [("Total Fat", "3g")] 100 !! "total_fat"))
    as H by (vm_compute; eauto).
  split; [exact H|].
  exact (proj2 (normalize_nutrients_keys _ _ _ H)).
Defined.

(** X14: when two entries have the same output key the later one wins:
    after an entry with a number, its key holds the record of that entry,
    and every other key holds what it held before. *)
Theorem normalize_nutrients_last_wins
    (raw : list (string * string)) (key value_str : string)
    (serving_size_g v : Q) :
  parsed_value value_str = Some v ->
  (exists info,
     normalize_nutrients (raw ++ [(key, value_str)]) serving_size_g
       !! output_key key = Some info /\
     name info = key /\ value info = v /\
     (per_100g info, unit info)
       = harmonized key (parsed_unit value_str) (rescaled v serving_size_g)) /\
  (forall k, k <> output_key key ->
     normalize_nutrients (raw ++ [(key, value_str)]) serving_size_g !! k
     = normalize_nutrients raw serving_size_g !! k).
Proof.
  intros Hv. unfold normalize_nutrients. rewrite fold_left_app. simpl.
  unfold normalize_step at 1 3. simpl.
  rewrite (normalize_entry_spec _ _ _ _ Hv). split.
  - eexists. split; [apply lookup_insert_eq|]. simpl. repeat split.
    now destruct (harmonized _ _ _).
  - intros k Hk. now rewrite lookup_insert_ne.
Qed.

(** X14 at a concrete input: "Total Fat" after "total_fat". *)
Lemma normalize_nutrients_last_wins_witness :
  exists info,
    normalize_nutrients ([("total_fat", "5g")] ++ [("Total Fat", "3g")]) 100
      !! output_key "Total Fat" = Some info /\
    name info = "Total Fat" /\ value info = 3.
Proof.
  destruct (normalize_nutrients_last_wins
              [("total_fat", "5g")] "Total Fat" "3g" 100 3 eq_refl)
    as [(info & H1 & H2 & H3 & _) _].
  exists info. auto.
Defined.






End NutrientMapProperties.

(** * Properties in Python's arithmetic *)

Section Binary64Properties.

Import Float64 Float64Reference.

#[local] Set Warnings "-inexact-float".

(** Binary64 multiplication is commutative. *)
Lemma Prim2SF_inj (x y : f64) : Prim2SF x = Prim2SF y -> x = y.
Proof.
  intros H. rewrite <- (SF2Prim_Prim2SF x), <- (SF2Prim_Prim2SF y). now rewrite H.
Qed.

Lemma SFmul_comm (a b : spec_float) : SFmul prec emax a b = SFmul prec emax b a.
Proof.
  destruct a as [sa|sa| |sa ma ea], b as [sb|sb| |sb mb eb]; simpl;
    try reflexivity; try (now rewrite xorb_comm).
  now rewrite xorb_comm, Pos.mul_comm, Z.add_comm.
Qed.

Lemma mul_comm (x y : f64) : PrimFloat.mul x y = PrimFloat.mul y x.
Proof. apply Prim2SF_inj. rewrite !FloatAxioms.mul_spec. apply SFmul_comm. Qed.

Lemma fold_add_snoc (l : list num) (d base : num) :
  fold_left add (l ++ [d]) base = add (fold_left add l base) d.
Proof. now rewrite fold_left_app. Qed.

Lemma py_tallied_fire base st d : tallied base st -> tallied base (fire st d).
Proof.
  unfold tallied, fire. simpl. intros ->.
  rewrite List.map_app. simpl. now rewrite fold_add_snoc.
Qed.

Lemma py_tallied_warn base st w : tallied base st -> tallied base (warn st w).
Proof. exact (fun H => H). Qed.

Lemma py_triggered_deltas_cons nutrients r rest :
  triggered_deltas nutrients (r :: rest)
  = triggered_deltas nutrients [r] ++ triggered_deltas nutrients rest.
Proof. simpl. destruct (triggered nutrients r); reflexivity. Qed.

Lemma py_triggered_warnings_cons nutrients r rest :
  triggered_warnings nutrients (r :: rest)
  = (triggered_warnings nutrients [r] + triggered_warnings nutrients rest)%nat.
Proof. simpl. destruct (triggered nutrients r); lia. Qed.

Lemma py_holds_step base nutrients rule r st l n :
  implements nutrients rule r -> holds base st l n ->
  holds base (rule st) (l ++ triggered_deltas nutrients [r])
        (n + triggered_warnings nutrients [r]).
Proof.
  intros Hr (Hd & Hs & Hw). specialize (Hr st). unfold holds. simpl.
  destruct (triggered nutrients r) as [d|].
  - destruct Hr as (driver & Heq & ->).
    destruct (rule_warns r); simpl; rewrite List.map_app, Hd, Hs; simpl;
      rewrite Heq, fold_add_snoc.
    + repeat split. rewrite Hw, repeat_app. reflexivity.
    + repeat split. rewrite Hw, Nat.add_0_r. reflexivity.
  - rewrite Hr, app_nil_r, Nat.add_0_r. repeat split; assumption.
Qed.

Lemma py_fiber_rule_implements nutrients :
  implements nutrients (fiber_rule nutrients) fiber_row.
Proof.
  intros st. unfold fiber_rule, triggered, ge, le, to_float. simpl.
  destruct (nutrients !! "dietary_fiber") as [i|]; [|reflexivity].
  change (of_int 6) with 6%float.
  destruct (PrimFloat.leb 6 (per_100g i)); [|reflexivity].
  eexists. split; [|reflexivity]. simpl.
  unfold min_, capped, lt, mul. simpl. now rewrite (mul_comm 1.5).
Qed.

Lemma py_protein_rule_implements nutrients :
  implements nutrients (protein_rule nutrients) protein_row.
Proof.
  intros st. unfold protein_rule, triggered, ge, le, to_float. simpl.
  destruct (nutrients !! "protein") as [i|]; [|reflexivity].
  change (of_int 12) with 12%float.
  destruct (PrimFloat.leb 12 (per_100g i)); [|reflexivity].
  eexists. split; [|reflexivity]. simpl.
  unfold min_, capped, lt, mul. simpl. now rewrite (mul_comm 0.3).
Qed.

Lemma py_sodium_rule_implements nutrients :
  implements nutrients (sodium_rule nutrients) sodium_row.
Proof.
  intros st. unfold sodium_rule, triggered, gt, lt, mul, to_float. simpl.
  destruct (nutrients !! "sodium") as [i|]; [|reflexivity].
  change (of_int 10) with 10%float. change (of_int 600) with 600%float.
  destruct (PrimFloat.ltb 600 (per_100g i * 10)); [|reflexivity].
  eexists. split; [|reflexivity]. simpl.
  unfold min_, capped, lt, mul, sub. simpl.
  change (of_int 600) with 600%float.
  now rewrite (mul_comm 0.01).
Qed.

Lemma py_saturated_fat_rule_implements nutrients :
  implements nutrients (saturated_fat_rule nutrients) saturated_fat_row.
Proof.
  intros st. unfold saturated_fat_rule, triggered, gt, lt, to_float. simpl.
  destruct (nutrients !! "saturated_fat") as [i|]; [|reflexivity].
  change (of_int 5) with 5%float.
  destruct (PrimFloat.ltb 5 (per_100g i)); [|reflexivity].
  eexists. split; [|reflexivity]. simpl.
  unfold min_, capped, lt, mul. simpl. now rewrite (mul_comm 1.5).
Qed.

Lemma py_total_sugars_rule_implements nutrients :
  implements nutrients (total_sugars_rule nutrients) total_sugars_row.
Proof.
  intros st. unfold total_sugars_rule, triggered, gt, lt, to_float. simpl.
  destruct (nutrients !! "total_sugars") as [i|]; [|reflexivity].
  change (of_int 15) with 15%float.
  destruct (PrimFloat.ltb 15 (per_100g i)); [|reflexivity].
  eexists. split; [|reflexivity]. simpl.
  unfold min_, capped, lt, mul. simpl. now rewrite (mul_comm 0.5).
Qed.

Lemma score_nutrients_holds nutrients :
  holds (Int 0) (_score_nutrients nutrients)
    (triggered_deltas nutrients nutrient_rules)
    (triggered_warnings nutrients nutrient_rules).
Proof.
  unfold _score_nutrients, nutrient_rules.
  do 4 rewrite (py_triggered_deltas_cons nutrients _ (_ :: _)).
  do 4 rewrite (py_triggered_warnings_cons nutrients _ (_ :: _)).
  rewrite !app_assoc, !Nat.add_assoc.
  apply (py_holds_step _ _ _ _ _ _ _ (py_total_sugars_rule_implements nutrients)).
  apply (py_holds_step _ _ _ _ _ _ _ (py_saturated_fat_rule_implements nutrients)).
  apply (py_holds_step _ _ _ _ _ _ _ (py_sodium_rule_implements nutrients)).
  apply (py_holds_step _ _ _ _ _ _ _ (py_protein_rule_implements nutrients)).
  apply (py_holds_step _ _ _ _ _ [] 0%nat (py_fiber_rule_implements nutrients)).
  repeat split.
Qed.

(** C2: for every nutrient map, in Python's arithmetic, the drivers
    recorded by [_score_nutrients] carry, in table order, exactly the
    capped deltas of the rules of the table whose key is present and whose
    condition holds of the stored per-100g value; the returned score is
    those deltas added in that order from 0; and one sodium warning is
    emitted exactly when the sodium rule is among them.  A rule whose key
    is missing contributes nothing.  The deltas are the binary64 results:
    for 12 g of protein the delta is 3.5999999999999996, and the sodium
    rule fires already at 60.00000000000001 with a delta of about -1.1e-15. *)
Theorem score_nutrients_follows_table (nutrients : gmap string NutrientInfo) :
  let r := _score_nutrients nutrients in
  map score_delta (acc_drivers r) = triggered_deltas nutrients nutrient_rules /\
  acc_score r = fold_left add (triggered_deltas nutrients nutrient_rules) (Int 0) /\
  acc_warnings r
    = repeat HealthScorer.sodium_warning
        (triggered_warnings nutrients nutrient_rules) /\
  map score_delta
    (acc_drivers (_score_nutrients
       (<["protein" := mkNutrientInfo "protein" 12 "g" 12]> ∅)))
    = [Flt 3.5999999999999996] /\
  map score_delta
    (acc_drivers (_score_nutrients
       (<["sodium" := mkNutrientInfo "sodium" 60.00000000000001 "mg"
                        60.00000000000001]> ∅)))
    = [Flt (-1.1368683772161603e-15)].
Proof.
  cbv zeta. destruct (score_nutrients_holds nutrients) as (Hd & Hs & Hw).
  repeat split; try assumption; vm_compute; reflexivity.
Qed.

Lemma py_tallied_score_nutrients nutrients :
  tallied (Int 0) (_score_nutrients nutrients).
Proof.
  destruct (score_nutrients_holds nutrients) as (Hd & Hs & _).
  unfold tallied. now rewrite Hs, Hd.
Qed.

Lemma py_tallied_score_ingredients ingredients :
  tallied (Int 0) (_score_ingredients ingredients).
Proof.
  unfold _score_ingredients.
  assert (tallied (Int 0) (mkAcc (Int 0) [] [])) as H0 by reflexivity.
  revert H0. generalize (mkAcc (Int 0) [] []) (classify_ingredients ingredients).
  intros st0 c H0.
  assert (tallied (Int 0) (harmful_rule c st0)) as H1.
  { unfold harmful_rule.
    destruct (gt _ _); [apply py_tallied_warn, py_tallied_fire|]; assumption. }
  assert (tallied (Int 0) (processed_rule c (harmful_rule c st0))) as H2.
  { unfold processed_rule at 1.
    destruct (gt _ _); [apply py_tallied_fire|]; assumption. }
  unfold beneficial_rule. destruct (gt _ _); [apply py_tallied_fire|]; assumption.
Qed.

Lemma py_score_product_fields product :
  overall_score (score_product product)
    = Z.max 0 (Z.min 100 (int (acc_score (fst (accumulate product))))) /\
  band (score_product product)
    = HealthScorer.band_of (overall_score (score_product product)) /\
  drivers (score_product product) = acc_drivers (fst (accumulate product)).
Proof.
  unfold score_product. destruct (accumulate product) as [st cf]. simpl. auto.
Qed.

Lemma trunc_add_zero (x : f64) : trunc (PrimFloat.add x 0) = trunc x.
Proof.
  unfold trunc. rewrite FloatAxioms.add_spec.
  change (Prim2SF 0) with (S754_zero false).
  destruct (Prim2SF x) as [[]|[]| |sx mx ex]; reflexivity.
Qed.

Lemma int_add_zero (a : num) : int (add a (Int 0)) = int a.
Proof.
  destruct a as [z|x]; simpl; [lia|].
  change (of_int 0) with 0%float. apply trunc_add_zero.
Qed.

Lemma py_accumulate_parts product :
  int (acc_score (fst (accumulate product))) = int (accumulated product) /\
  acc_drivers (fst (accumulate product))
    = acc_drivers (_score_nutrients (nutrients product))
      ++ acc_drivers (_score_ingredients (ingredients product)).
Proof.
  pose proof (py_tallied_score_nutrients (nutrients product)) as Tn.
  pose proof (py_tallied_score_ingredients (ingredients product)) as Ti.
  unfold tallied in Tn, Ti. unfold accumulated, total, accumulate.
  rewrite <- Tn, <- Ti.
  destruct (bool_decide_reflect (nutrients product = ∅)) as [->|_];
    destruct (ingredients product) as [|i l];
    cbn [fst acc_score acc_drivers]; rewrite ?app_nil_r; split;
    try reflexivity.
  change (acc_score (_score_ingredients [])) with (Int 0).
  now rewrite int_add_zero.
Qed.

(** C1, as stated, fails: with 6.5 g of fibre per 100 g the only delta is
    9.75, the accumulated score is 59.75, and [score_product] returns 59
    where rounding to the nearest integer gives 60. *)
Lemma score_product_not_rounded :
  let fibre_only :=
    mkProductData None "" "" []
      (<["dietary_fiber" := mkNutrientInfo "dietary_fiber" 6.5 "g" 6.5]> ∅)
      None [] in
  accumulated fibre_only = Flt 59.75 /\
  overall_score (score_product fibre_only) = 59%Z /\
  Reference.clamp (round_num (accumulated fibre_only)) 0 100 = 60%Z /\
  overall_score (score_product fibre_only)
    <> Reference.clamp (round_num (accumulated fibre_only)) 0 100.
Proof. vm_compute. repeat split; congruence. Qed.

(** C1, amended: for every product, [overall_score] is the score
    accumulated in Python's arithmetic (50, then the deltas of the
    nutrient drivers added in order from 0, then those of the ingredient
    drivers likewise), cut to its integer part toward zero by [int] and
    then clamped to 0..100; the drivers of the result are exactly those
    drivers.  With sodium at 60.00000000000001 the delta of about -1.1e-15
    is absorbed by 50 and the score is 50. *)
Theorem score_product_truncates (product : ProductData) :
  overall_score (score_product product)
    = Reference.clamp (int (accumulated product)) 0 100 /\
  drivers (score_product product)
    = acc_drivers (_score_nutrients (nutrients product))
      ++ acc_drivers (_score_ingredients (ingredients product)) /\
  overall_score
    (score_product
       (mkProductData None "" "" []
          (<["sodium" := mkNutrientInfo "sodium" 60.00000000000001 "mg"
                           60.00000000000001]> ∅)
          None []))
    = 50%Z.
Proof.
  destruct (py_score_product_fields product) as (Hs & _ & Hd).
  destruct (py_accumulate_parts product) as (Ha & Hl).
  rewrite Hs, Hd, Ha, Hl, clamp_max_min.
  split; [reflexivity|]. split; [reflexivity|]. vm_compute. reflexivity.
Qed.

Lemma py_harmonized_spec (key u : string) (p : f64) :
  (if String.eqb u "mg" && negb (NutrientNormalizer.stays_in_mg (lower key))
   then (PrimFloat.div p 1000, "g") else (p, u))
  = harmonized key u p.
Proof.
  unfold harmonized.
  destruct (String.eqb_spec u "mg") as [Hu|Hu]; simpl.
  - destruct (NutrientNormalizer.stays_in_mg (lower key)) eqn:Hs; simpl.
    + apply stays_in_mg_spec in Hs.
      destruct (decide _) as [(_ & H1 & H2)|_]; [tauto | reflexivity].
    + destruct (decide _) as [_|H]; [reflexivity|].
      exfalso. apply H. repeat split; [assumption| |];
        intros E; assert (NutrientNormalizer.stays_in_mg (lower key) = true)
          by (apply stays_in_mg_spec; auto); congruence.
  - destruct (decide _) as [(H & _)|_]; [contradiction | reflexivity].
Qed.

Lemma py_normalize_entry_spec key value_str serving v :
  parsed_value value_str = Some v ->
  normalize_entry key value_str serving
  = Some (Reference.output_key key, stored key value_str v serving).
Proof.
  unfold parsed_value, normalize_entry, stored, Reference.parsed_unit, rescaled,
    Reference.output_key.
  destruct (NutrientNormalizer.re_search_number value_str) as [text|];
    [|discriminate].
  intros [= <-]. rewrite py_harmonized_spec.
  now destruct (harmonized _ _ _).
Qed.

Lemma py_normalize_entry_key key s serving k info :
  normalize_entry key s serving = Some (k, info) ->
  k = Reference.output_key key /\ NutrientNormalizer.re_search_number s <> None.
Proof.
  unfold normalize_entry.
  destruct (NutrientNormalizer.re_search_number s) as [text|]; [|discriminate].
  destruct (_ && _); intros [= <- _]; split; try reflexivity; discriminate.
Qed.

Lemma py_fold_keeps serving raw (m : gmap string NutrientInfo) key x :
  m !! Reference.output_key key = Some x ->
  not_overwritten key raw ->
  fold_left (normalize_step serving) raw m !! Reference.output_key key = Some x.
Proof.
  revert m. induction raw as [|[key' s'] raw IH]; intros m Hm Hno; [exact Hm|].
  simpl. apply IH.
  - unfold normalize_step. simpl.
    destruct (normalize_entry key' s' serving) as [[k info]|] eqn:E; [|exact Hm].
    apply py_normalize_entry_key in E as [-> Hnum].
    destruct (decide (Reference.output_key key' = Reference.output_key key))
      as [Heq|Hne].
    + exfalso. apply Hnum. apply (Hno key' s'); [now left | exact Heq].
    + now rewrite lookup_insert_ne.
  - intros k2 s2 Hin. apply Hno. now right.
Qed.

(** C6: in any raw map, an entry whose value string yields the number
    [v] and the unit [u], and whose output key is not taken again by a
    later entry with a number, is stored with
    [per_100g = v / serving_size_g * 100] when the serving size is
    positive and [per_100g = v] otherwise, after which a unit of mg under
    a key other than sodium and cholesterol divides [per_100g] by 1000
    and becomes g; every operation is the binary64 one.  300 mg of sodium
    in 50 g gives 600 in mg and 2000 mg of total fat in 50 g gives 4 in
    g; 2.7 g in 18 g gives 15.000000000000002 and 7.25 g in 100 g gives
    7.249999999999999. *)
Theorem normalize_nutrients_rescales
    (raw1 raw2 : list (string * string)) (key value_str : string)
    (serving_size_g v : f64) :
  (parsed_value value_str = Some v ->
   not_overwritten key raw2 ->
   normalize_nutrients (raw1 ++ (key, value_str) :: raw2) serving_size_g
     !! Reference.output_key key
   = Some (stored key value_str v serving_size_g)) /\
  normalize_nutrients [("sodium", "300mg")] 50 !! "sodium"
    = Some (mkNutrientInfo "sodium" 300 "mg" 600) /\
  normalize_nutrients [("total_fat", "2000mg")] 50 !! "total_fat"
    = Some (mkNutrientInfo "total_fat" 2000 "g" 4) /\
  normalize_nutrients [("protein", "2.7g")] 18 !! "protein"
    = Some (mkNutrientInfo "protein" 2.7 "g" 15.000000000000002) /\
  normalize_nutrients [("total_fat", "7.25 g")] 100 !! "total_fat"
    = Some (mkNutrientInfo "total_fat" 7.25 "g" 7.249999999999999).
Proof.
  split; [|repeat split; vm_compute; reflexivity].
  intros Hv Hno. unfold normalize_nutrients. rewrite fold_left_app. simpl.
  apply py_fold_keeps; [|exact Hno].
  unfold normalize_step at 1. simpl.
  rewrite (py_normalize_entry_spec _ _ _ _ Hv). apply lookup_insert_eq.
Qed.

(** C6 at a concrete input: "Total Fat" after "total_fat" and before two
    other entries, one of them without a number. *)
Lemma normalize_nutrients_rescales_witness :
  normalize_nutrients
    ([("total_fat", "5g")]
     ++ ("Total Fat", "2000mg") :: [("sodium", "300mg"); ("fiber", "n/a")]) 50
    !! "total_fat"
  = Some (mkNutrientInfo "Total Fat" 2000 "g" 4).
Proof.
  refine (proj1 (normalize_nutrients_rescales
                   [("total_fat", "5g")] [("sodium", "300mg"); ("fiber", "n/a")]
                   "Total Fat" "2000mg" 50 2000) _ _).
  - vm_compute. reflexivity.
  - intros key' s' [[= <- <-]|[[= <- <-]|[]]]; vm_compute; congruence.
Defined.

End Binary64Properties.
